(** * Media automation tools: the scene validator, its reports, the tools
      updater and the storyboard generator

    A shallow embedding of [tools/SceneValidator/src/scene_validator.py],
    [update_tools.py] and parts of
    [tools/StoryboardGen/src/storyboard_gen.py].  Python text is modelled by
    [string]: a character is a code point below 256, so the [str] methods
    below are Python's on that alphabet.  Values that come out of
    [json.loads] are kept as they are, of whatever JSON type; what Python
    itself raises on a value of the wrong type is part of the model.  The
    records handed to the loggers are left out for the validator and the
    storyboard generator, and kept for the updater. *)

From Stdlib Require Import String Ascii List Bool Arith Lia.
From Stdlib Require Import DecimalString.
From Stdlib Require Import ZArith.
Import ListNotations.
Open Scope list_scope.
Open Scope string_scope.

(** ** Python's [str] methods *)

Module Str.

Definition code (c : ascii) : nat := nat_of_ascii c.

Definition between (lo hi : nat) (c : ascii) : bool :=
  (lo <=? code c)%nat && (code c <=? hi)%nat.

(** [c.isspace()]: tab to carriage return, the four separators 28..31,
    space, NEL (133) and the no-break space (160). *)
Definition isspace (c : ascii) : bool :=
  between 9 13 c || between 28 32 c || (code c =? 133)%nat || (code c =? 160)%nat.

Fixpoint lstrip (s : string) : string :=
  match s with
  | String c r => if isspace c then lstrip r else s
  | EmptyString => EmptyString
  end.

Fixpoint rstrip (s : string) : string :=
  match s with
  | String c r =>
      match rstrip r with
      | EmptyString => if isspace c then EmptyString else String c EmptyString
      | r' => String c r'
      end
  | EmptyString => EmptyString
  end.

(** [s.strip()] *)
Definition strip (s : string) : string := rstrip (lstrip s).

(** [s.startswith(p)] *)
Definition startswith (s p : string) : bool := prefix p s.

(** [s.split(sep)] for a one-character separator. *)
Fixpoint split_char (sep : ascii) (s : string) : list string :=
  match s with
  | EmptyString => [EmptyString]
  | String c r =>
      if Ascii.eqb c sep then EmptyString :: split_char sep r
      else match split_char sep r with
           | x :: xs => String c x :: xs
           | [] => [String c EmptyString]
           end
  end.

Fixpoint drop (n : nat) (s : string) : string :=
  match n, s with
  | S m, String _ r => drop m r
  | _, _ => s
  end.

(** [s[:n]] *)
Fixpoint take (n : nat) (s : string) : string :=
  match n, s with
  | S m, String c r => String c (take m r)
  | _, _ => EmptyString
  end.

(** [s.split(sep, 1)] for a non-empty separator: the text before and
    after the first occurrence of [sep], or [None] when [sep] does not
    occur (Python then returns the one-element list [[s]]). *)
Fixpoint split_once (sep s : string) : option (string * string) :=
  if prefix sep s then Some (EmptyString, drop (String.length sep) s)
  else match s with
       | EmptyString => None
       | String c r =>
           match split_once sep r with
           | Some (a, b) => Some (String c a, b)
           | None => None
           end
       end.

(** [sep in s] *)
Definition contains (sep s : string) : bool :=
  match split_once sep s with Some _ => true | None => false end.

(** [c.lower()]: A..Z and the Latin-1 capitals 192..222 (but not the
    multiplication sign 215) move up by 32. *)
Definition lower_char (c : ascii) : ascii :=
  if between 65 90 c || (between 192 222 c && negb (code c =? 215)%nat)
  then ascii_of_nat (code c + 32) else c.

Fixpoint lower (s : string) : string :=
  match s with
  | String c r => String (lower_char c) (lower r)
  | EmptyString => EmptyString
  end.

(** The title-case form of one character.  The sharp s (223) becomes
    [Ss]; the capitals of the micro sign (181) and of y with diaeresis
    (255) lie beyond code point 255 and are left as they are here. *)
Definition title_char (c : ascii) : string :=
  if between 97 122 c || (between 224 254 c && negb (code c =? 247)%nat)
  then String (ascii_of_nat (code c - 32)) EmptyString
  else if (code c =? 223)%nat then "Ss"
  else String c EmptyString.

(** [s.capitalize()] *)
Definition capitalize (s : string) : string :=
  match s with
  | String c r => title_char c ++ lower r
  | EmptyString => EmptyString
  end.

(** [''.join(parts)] *)
Definition join (parts : list string) : string := String.concat "" parts.

(** [str(n)] for a natural number. *)
Definition of_nat (n : nat) : string := NilEmpty.string_of_uint (Nat.to_uint n).

(** [s.rfind(c)]: the index of the last [c], if any. *)
Fixpoint rfind (c : ascii) (s : string) : option nat :=
  match s with
  | EmptyString => None
  | String d r =>
      match rfind c r with
      | Some i => Some (S i)
      | None => if Ascii.eqb d c then Some 0 else None
      end
  end.

(** Whether some character of [s] differs from [c]. *)
Fixpoint any_other (c : ascii) (s : string) : bool :=
  match s with
  | EmptyString => false
  | String d r => negb (Ascii.eqb d c) || any_other c r
  end.

End Str.

(** [os.path.splitext] (POSIX): the extension starts at the last dot of the
    last path component, unless only dots precede it in that component. *)
Definition splitext (p : string) : string * string :=
  let start := match Str.rfind "/" p with Some i => S i | None => 0 end in
  match Str.rfind "." p with
  | Some dot =>
      if (start <=? dot)%nat && Str.any_other "." (Str.take (dot - start) (Str.drop start p))
      then (Str.take dot p, Str.drop dot p)
      else (p, EmptyString)
  | None => (p, EmptyString)
  end.

(** ** JSON values and Python's [json] module *)

(** A value of a JSON type, as [json.loads] returns it: [None], a boolean,
    a number, a string, a list or a dict.  A number is kept as the text that
    denotes it: Python keeps the [int] or [float] it denotes, and no code
    modelled here computes with one. *)
#[local] Unset Elimination Schemes.
Inductive json : Type :=
| JNull
| JBool (b : bool)
| JNum (lexeme : string)
| JStr (s : string)
| JArr (items : list json)
| JObj (members : list (string * json)).
#[local] Set Elimination Schemes.

Module Json.

Definition quote : ascii := "034"%char.
Definition backslash : ascii := "092"%char.
Definition newline : ascii := "010"%char.

Definition ch (c : ascii) : string := String c EmptyString.

(** *** Encoding: [json.dumps(v, indent=2)] *)

Definition hex_digit (n : nat) : ascii :=
  if (n <? 10)%nat then ascii_of_nat (48 + n) else ascii_of_nat (87 + n).

(** [ensure_ascii] escaping of one character: the short escapes, then
    [\u00xx] for whatever lies outside space..tilde. *)
Definition escape_char (c : ascii) : string :=
  let n := Str.code c in
  if (n =? 34)%nat then String backslash (ch quote)
  else if (n =? 92)%nat then String backslash (ch backslash)
  else if (n =? 10)%nat then String backslash "n"
  else if (n =? 13)%nat then String backslash "r"
  else if (n =? 9)%nat then String backslash "t"
  else if (n =? 8)%nat then String backslash "b"
  else if (n =? 12)%nat then String backslash "f"
  else if (n <? 32)%nat || (126 <? n)%nat
       then String backslash
              ("u00" ++ String (hex_digit (n / 16)) (ch (hex_digit (n mod 16))))
  else ch c.

Fixpoint escape (s : string) : string :=
  match s with
  | String c r => escape_char c ++ escape r
  | EmptyString => EmptyString
  end.

Definition encode_str (s : string) : string :=
  String quote (escape s ++ ch quote).

Fixpoint spaces (n : nat) : string :=
  match n with
  | 0 => EmptyString
  | S m => String " " (spaces m)
  end.

(** A line break followed by the indentation of nesting level [lvl]. *)
Definition nl (lvl : nat) : string := String newline (spaces (2 * lvl)).

(** The items of an array after the first, each behind a comma and a line
    break, then the closing bracket on a line of its own. *)
Definition more_items (lvl : nat) (dump : json -> string) : list json -> string :=
  fix more (l : list json) : string :=
    match l with
    | [] => nl lvl ++ "]"
    | y :: l' => "," ++ nl (S lvl) ++ dump y ++ more l'
    end.

(** The same for the members of an object. *)
Definition more_members (lvl : nat) (dump : json -> string)
  : list (string * json) -> string :=
  fix more (l : list (string * json)) : string :=
    match l with
    | [] => nl lvl ++ "}"
    | (k, y) :: l' => "," ++ nl (S lvl) ++ encode_str k ++ ": " ++ dump y ++ more l'
    end.

Fixpoint dumps_at (lvl : nat) (v : json) : string :=
  match v with
  | JNull => "null"
  | JBool true => "true"
  | JBool false => "false"
  | JNum n => n
  | JStr s => encode_str s
  | JArr [] => "[]"
  | JArr (x :: xs) =>
      "[" ++ nl (S lvl) ++ dumps_at (S lvl) x
      ++ more_items lvl (dumps_at (S lvl)) xs
  | JObj [] => "{}"
  | JObj ((k, x) :: xs) =>
      "{" ++ nl (S lvl) ++ encode_str k ++ ": " ++ dumps_at (S lvl) x
      ++ more_members lvl (dumps_at (S lvl)) xs
  end.

Definition dumps (v : json) : string := dumps_at 0 v.

(** *** Decoding: [json.loads(s)] *)

Definition is_ws (c : ascii) : bool :=
  let n := Str.code c in
  (n =? 32)%nat || (n =? 9)%nat || (n =? 10)%nat || (n =? 13)%nat.

Fixpoint skip_ws (s : string) : string :=
  match s with
  | String c r => if is_ws c then skip_ws r else s
  | EmptyString => EmptyString
  end.

Definition hex_val (c : ascii) : option nat :=
  let n := Str.code c in
  if Str.between 48 57 c then Some (n - 48)
  else if Str.between 97 102 c then Some (n - 87)
  else if Str.between 65 70 c then Some (n - 55)
  else None.

Definition hex4 (a b c d : ascii) : option nat :=
  match hex_val a, hex_val b, hex_val c, hex_val d with
  | Some x, Some y, Some z, Some w => Some (((x * 16 + y) * 16 + z) * 16 + w)
  | _, _, _, _ => None
  end.

(** The character a short escape [\e] stands for. *)
Definition unescape (e : ascii) : option ascii :=
  let n := Str.code e in
  if (n =? 34)%nat then Some quote
  else if (n =? 92)%nat then Some backslash
  else if (n =? 47)%nat then Some "/"%char
  else if (n =? 98)%nat then Some "008"%char
  else if (n =? 102)%nat then Some "012"%char
  else if (n =? 110)%nat then Some newline
  else if (n =? 114)%nat then Some "013"%char
  else if (n =? 116)%nat then Some "009"%char
  else None.

Definition cons_char (c : ascii) (r : option (string * string))
  : option (string * string) :=
  match r with
  | Some (s, rest) => Some (String c s, rest)
  | None => None
  end.

(** The body of a string literal, from just after its opening quote:
    the decoded text and what follows the closing quote.  A raw control
    character is refused (strict mode); an escape [\uxxxx] above 255
    names a character outside the alphabet of this model and is refused
    here too. *)
Fixpoint scanstring (s : string) : option (string * string) :=
  match s with
  | EmptyString => None
  | String c r =>
      if Ascii.eqb c quote then Some (EmptyString, r)
      else if Ascii.eqb c backslash then
        match r with
        | String e r1 =>
            if Ascii.eqb e "u" then
              match r1 with
              | String h1 (String h2 (String h3 (String h4 r2))) =>
                  match hex4 h1 h2 h3 h4 with
                  | Some n =>
                      if (n <? 256)%nat
                      then cons_char (ascii_of_nat n) (scanstring r2)
                      else None
                  | None => None
                  end
              | _ => None
              end
            else
              match unescape e with
              | Some d => cons_char d (scanstring r1)
              | None => None
              end
        | EmptyString => None
        end
      else if (Str.code c <? 32)%nat then None
      else cons_char c (scanstring r)
  end.

Definition is_digit (c : ascii) : bool := Str.between 48 57 c.

(** The longest run of digits at the head of [s], and the rest. *)
Fixpoint digits (s : string) : string * string :=
  match s with
  | String c r =>
      if is_digit c then let (d, t) := digits r in (String c d, t)
      else (EmptyString, s)
  | EmptyString => (EmptyString, EmptyString)
  end.

(** The integer part of a number: an optional minus sign, then either a
    single zero or a non-zero digit followed by digits. *)
Definition scan_int (s : string) : option (string * string) :=
  let (sign, s1) :=
    match s with
    | String c r => if Ascii.eqb c "-" then ("-", r) else (EmptyString, s)
    | EmptyString => (EmptyString, s)
    end in
  match s1 with
  | String c r =>
      if Ascii.eqb c "0" then Some (sign ++ "0", r)
      else if is_digit c then let (d, t) := digits r in Some (sign ++ String c d, t)
      else None
  | EmptyString => None
  end.

(** The optional fraction: a dot and at least one digit. *)
Definition scan_frac (s : string) : string * string :=
  match s with
  | String c r =>
      if Ascii.eqb c "." then
        match digits r with
        | (EmptyString, _) => (EmptyString, s)
        | (d, t) => (String c d, t)
        end
      else (EmptyString, s)
  | EmptyString => (EmptyString, s)
  end.

(** The optional exponent: e or E, an optional sign, at least one digit. *)
Definition scan_exp (s : string) : string * string :=
  match s with
  | String c r =>
      if Ascii.eqb c "e" || Ascii.eqb c "E" then
        let (sign, r1) :=
          match r with
          | String d r' =>
              if Ascii.eqb d "-" || Ascii.eqb d "+" then (ch d, r') else (EmptyString, r)
          | EmptyString => (EmptyString, r)
          end in
        match digits r1 with
        | (EmptyString, _) => (EmptyString, s)
        | (d, t) => (String c (sign ++ d), t)
        end
      else (EmptyString, s)
  | EmptyString => (EmptyString, s)
  end.

Definition scan_number (s : string) : option (string * string) :=
  match scan_int s with
  | Some (i, r) =>
      let (f, r1) := scan_frac r in
      let (e, r2) := scan_exp r1 in
      Some (i ++ f ++ e, r2)
  | None => None
  end.

(** A fixed word at the head of [s]. *)
Definition word (w : string) (v : json) (s : string) : option (json * string) :=
  if prefix w s then Some (v, Str.drop (String.length w) s) else None.

(** The scalars that are not strings: the three literals, then a number,
    then the three names Python accepts for non-finite numbers. *)
Definition scan_scalar (s : string) : option (json * string) :=
  match word "null" JNull s with
  | Some r => Some r
  | None =>
  match word "true" (JBool true) s with
  | Some r => Some r
  | None =>
  match word "false" (JBool false) s with
  | Some r => Some r
  | None =>
  match scan_number s with
  | Some (n, r) => Some (JNum n, r)
  | None =>
  match word "NaN" (JNum "NaN") s with
  | Some r => Some r
  | None =>
  match word "Infinity" (JNum "Infinity") s with
  | Some r => Some r
  | None => word "-Infinity" (JNum "-Infinity") s
  end end end end end end.

(** [d[k] = v] on an insertion-ordered dict. *)
Fixpoint dict_set (k : string) (v : json) (d : list (string * json))
  : list (string * json) :=
  match d with
  | [] => [(k, v)]
  | (k', v') :: d' =>
      if String.eqb k' k then (k, v) :: d' else (k', v') :: dict_set k v d'
  end.

(** [dict(pairs)]: a repeated key keeps its first place and its last
    value. *)
Definition dict_of (pairs : list (string * json)) : list (string * json) :=
  fold_left (fun d kv => dict_set (fst kv) (snd kv) d) pairs [].

(** One value at the head of [s] (the callers skip the white space
    before it).  [scan_items] reads the items of an array from its first
    item on, [scan_members] the members of an object from just after the
    opening quote of a key; both carry what they have read, latest
    first.  Every call spends one unit of [fuel]. *)
Fixpoint scan_once (fuel : nat) (s : string) : option (json * string) :=
  match fuel with
  | 0 => None
  | S f =>
      match s with
      | EmptyString => None
      | String c r =>
          if Ascii.eqb c quote then
            match scanstring r with
            | Some (t, r') => Some (JStr t, r')
            | None => None
            end
          else if Ascii.eqb c "{" then
            match skip_ws r with
            | String d r' =>
                if Ascii.eqb d "}" then Some (JObj [], r')
                else if Ascii.eqb d quote then scan_members f r' []
                else None
            | EmptyString => None
            end
          else if Ascii.eqb c "[" then
            match skip_ws r with
            | String d r' =>
                if Ascii.eqb d "]" then Some (JArr [], r')
                else scan_items f (String d r') []
            | EmptyString => None
            end
          else scan_scalar s
      end
  end
with scan_items (fuel : nat) (s : string) (acc : list json)
  : option (json * string) :=
  match fuel with
  | 0 => None
  | S f =>
      match scan_once f s with
      | Some (v, r) =>
          match skip_ws r with
          | String d r' =>
              if Ascii.eqb d "]" then Some (JArr (rev (v :: acc)), r')
              else if Ascii.eqb d "," then scan_items f (skip_ws r') (v :: acc)
              else None
          | EmptyString => None
          end
      | None => None
      end
  end
with scan_members (fuel : nat) (s : string) (acc : list (string * json))
  : option (json * string) :=
  match fuel with
  | 0 => None
  | S f =>
      match scanstring s with
      | Some (k, r) =>
          match skip_ws r with
          | String d r1 =>
              if Ascii.eqb d ":" then
                match scan_once f (skip_ws r1) with
                | Some (v, r2) =>
                    match skip_ws r2 with
                    | String e r3 =>
                        if Ascii.eqb e "}"
                        then Some (JObj (dict_of (rev ((k, v) :: acc))), r3)
                        else if Ascii.eqb e "," then
                          match skip_ws r3 with
                          | String q r4 =>
                              if Ascii.eqb q quote
                              then scan_members f r4 ((k, v) :: acc)
                              else None
                          | EmptyString => None
                          end
                        else None
                    | EmptyString => None
                    end
                | None => None
                end
              else None
          | EmptyString => None
          end
      | None => None
      end
  end.

(** [json.loads(s)]: one value, white space allowed around it and
    nothing else; [None] stands for the exception Python raises on any
    other text.  Two limits of the interpreter are left out: Python also
    raises on values nested deeper than its recursion limit allows, and on
    integers of more digits than its conversion limit allows. *)
Definition loads (s : string) : option json :=
  match scan_once (S (String.length s)) (skip_ws s) with
  | Some (v, r) =>
      match skip_ws r with
      | EmptyString => Some v
      | String _ _ => None
      end
  | None => None
  end.

(** [d.get(k)] *)
Fixpoint get (k : string) (d : list (string * json)) : option json :=
  match d with
  | [] => None
  | (k', v) :: d' => if String.eqb k' k then Some v else get k d'
  end.

End Json.

(** ** The scene validator *)

(** What a call can do: return a value or raise.  An exception is known by
    its class and by its text, [str(e)]; [OSError] stands for the errors of
    [open] on a path that cannot be opened (a directory, a file without
    permission), [UnicodeDecodeError] for a file that is not text, and
    [LibraryError] for whatever the service library raises. *)
Inductive exn : Type :=
| ValueError (msg : string)
| FileNotFoundError (msg : string)
| AttributeError (msg : string)
| TypeError (msg : string)
| JSONDecodeError (msg : string)
| OSError (msg : string)
| UnicodeDecodeError (msg : string)
| LibraryError (msg : string).

Inductive outcome (A : Type) : Type :=
| Returns (a : A)
| Raises (e : exn).
Arguments Returns {A} a.
Arguments Raises {A} e.

(** [str(e)] *)
Definition exn_text (e : exn) : string :=
  match e with
  | ValueError msg | FileNotFoundError msg | AttributeError msg | TypeError msg
  | JSONDecodeError msg | OSError msg | UnicodeDecodeError msg
  | LibraryError msg => msg
  end.

(** A number that [json.loads] makes an [int]: its text holds neither a
    fraction nor an exponent, and is none of the three names. *)
Fixpoint is_int_lexeme (n : string) : bool :=
  match n with
  | String c r => (Json.is_digit c || Ascii.eqb c "-") && is_int_lexeme r
  | EmptyString => true
  end.

(** [type(v).__name__] *)
Definition type_name (v : json) : string :=
  match v with
  | JNull => "NoneType"
  | JBool _ => "bool"
  | JNum n => if is_int_lexeme n then "int" else "float"
  | JStr _ => "str"
  | JArr _ => "list"
  | JObj _ => "dict"
  end.

(** The fields of an issue are declared [str] and [List[str]], and a
    dataclass checks nothing: a field holds whatever value it was given,
    which for the issues of the analysis is whatever JSON value the service
    sent. *)
Record ValidationIssue : Type := mkIssue {
  issue_type : json;
  description : json;
  location : json;
  severity : json;
  suggestions : json
}.

Record ValidationResult : Type := mkResult {
  valid : bool;
  issues : list ValidationIssue;
  summary : string
}.

(** A list of strings, as a value. *)
Definition texts (l : list string) : json := JArr (map JStr l).

Definition dq : string := Json.ch Json.quote.
Definition br : string := Json.ch Json.newline.

(** [v == s] for a string [s]: only a string equals a string. *)
Definition eq_str (v : json) (s : string) : bool :=
  match v with
  | JStr t => t =? s
  | _ => false
  end.

Fixpoint chars (s : string) : list json :=
  match s with
  | String c r => JStr (Json.ch c) :: chars r
  | EmptyString => []
  end.

(** What [for x in v] ranges over: the items of a list, the characters
    of a string, the keys of a dict; nothing else can be iterated. *)
Definition iterate (v : json) : option (list json) :=
  match v with
  | JArr l => Some l
  | JStr s => Some (chars s)
  | JObj d => Some (map (fun kv => JStr (fst kv)) d)
  | _ => None
  end.

(** [vars(issue)] *)
Definition vars (i : ValidationIssue) : json :=
  JObj [("issue_type", issue_type i);
        ("description", description i);
        ("location", location i);
        ("severity", severity i);
        ("suggestions", suggestions i)].

(** The dict that [get_report] hands to [json.dumps]. *)
Definition report_dict (r : ValidationResult) : json :=
  JObj [("valid", JBool (valid r));
        ("issues", JArr (map vars (issues r)));
        ("summary", JStr (summary r))].

Section Rendering.

(** [str(v)] for a value that is not a string, as Python prints it
    ([None], [True], [5], [1.5], [['a']], ...). *)
Variable py_str : json -> string.

(** A value inside an f-string: a string stands as it is. *)
Definition format_value (v : json) : string :=
  match v with
  | JStr s => s
  | _ => py_str v
  end.

(** One row of the table.  [issue.severity.capitalize()] exists on a string
    only, and [for s in issue.suggestions] needs something to iterate. *)
Definition html_row (issue : ValidationIssue) : outcome string :=
  match severity issue with
  | JStr sev =>
      match iterate (suggestions issue) with
      | Some items =>
          Returns
            ("<tr>"
             ++ "<td>" ++ format_value (issue_type issue) ++ "</td>"
             ++ "<td>" ++ format_value (description issue) ++ "</td>"
             ++ "<td>" ++ format_value (location issue) ++ "</td>"
             ++ "<td class=" ++ dq ++ sev ++ dq ++ ">"
             ++ Str.capitalize sev ++ "</td>"
             ++ "<td><ul>"
             ++ Str.join (map (fun s => "<li>" ++ format_value s ++ "</li>") items)
             ++ "</ul></td>"
             ++ "</tr>")
      | None =>
          Raises (TypeError ("'" ++ type_name (suggestions issue)
                             ++ "' object is not iterable"))
      end
  | v =>
      Raises (AttributeError ("'" ++ type_name v
                              ++ "' object has no attribute 'capitalize'"))
  end.

(** The loop over the issues: the rows so far, until one raises. *)
Fixpoint html_rows (l : list ValidationIssue) : outcome string :=
  match l with
  | [] => Returns EmptyString
  | issue :: rest =>
      match html_row issue with
      | Returns row =>
          match html_rows rest with
          | Returns rows => Returns (row ++ rows)
          | Raises e => Raises e
          end
      | Raises e => Raises e
      end
  end.

Definition html_head (r : ValidationResult) : string :=
  "<html><head><title>Scene Validation Report</title>"
  ++ "<style>body{font-family:Arial;max-width:800px;margin:0 auto;padding:20px}"
  ++ ".valid{color:green}.invalid{color:red}"
  ++ ".high{color:red}.medium{color:orange}.low{color:blue}"
  ++ "table{width:100%;border-collapse:collapse}"
  ++ "td,th{border:1px solid #ddd;padding:8px}</style></head><body>"
  ++ "<h1>Scene Validation Report</h1>"
  ++ "<h2 class=" ++ dq ++ (if valid r then "valid" else "invalid") ++ dq
  ++ ">Status: " ++ (if valid r then "Valid" else "Invalid") ++ "</h2>"
  ++ "<h3>Summary</h3><p>" ++ summary r ++ "</p>".

Definition html_report (r : ValidationResult) : outcome string :=
  match issues r with
  | _ :: _ =>
      match html_rows (issues r) with
      | Returns rows =>
          Returns
            (html_head r
             ++ "<h3>Issues</h3><table>"
             ++ "<tr><th>Type</th><th>Description</th><th>Location</th><th>Severity</th><th>Suggestions</th></tr>"
             ++ rows
             ++ "</table>"
             ++ "</body></html>")
      | Raises e => Raises e
      end
  | [] => Returns (html_head r ++ "<p>No issues found!</p>" ++ "</body></html>")
  end.

Definition get_report (self : ValidationResult) (format : string) : outcome string :=
  if Str.lower format =? "json" then Returns (Json.dumps (report_dict self))
  else if Str.lower format =? "html" then html_report self
  else Raises (ValueError ("Unsupported report format: " ++ format)).

End Rendering.

(** The generative text service.  A call either raises, with a message,
    or yields a response whose [text] is a string or raises when read. *)
Inductive reply : Type :=
| CallRaises (msg : string)
| Response (text : option string).

Record GenerativeModel : Type := { generate_content : string -> reply }.

(** A validator, after [__init__]: it holds a model when the service is
    installed and the configuration names a key. *)
Record SceneValidator : Type := { gemini_model : option GenerativeModel }.

Definition _validate_scene_structure (content file_type : string)
  : list ValidationIssue :=
  if existsb (String.eqb file_type) [".fdx"; ".fountain"] then
    let lines := Str.split_char Json.newline content in
    let scene_headers :=
      filter (fun l => Str.startswith (Str.strip l) "INT."
                       || Str.startswith (Str.strip l) "EXT.") lines in
    match scene_headers with
    | [] =>
        [mkIssue (JStr "missing_scene_headers")
                 (JStr "No standard scene headers (INT./EXT.) found")
                 (JStr "entire script")
                 (JStr "medium")
                 (texts ["Add proper scene headers starting with INT. or EXT.";
                         "Format scene headings according to screenplay standards"])]
    | _ :: _ => []
    end
  else [].

Definition _validate_continuity (content : string) : list ValidationIssue := [].

Definition _validate_character_consistency (content : string)
  : list ValidationIssue := [].

Definition max_length : nat := 30 * 1000.

Definition prompt_line (s : string) : string := "            " ++ s ++ br.

Definition prompt (analysis_content : string) : string :=
  br
  ++ prompt_line "Analyze the following script content for potential issues:"
  ++ prompt_line ""
  ++ prompt_line "1. Identify continuity problems (e.g., objects appearing/disappearing, time inconsistencies)"
  ++ prompt_line "2. Check for character consistency issues"
  ++ prompt_line "3. Identify structural problems in the narrative"
  ++ prompt_line "4. Look for logical flaws or plot holes"
  ++ prompt_line ""
  ++ prompt_line "Respond in JSON format with found issues, each containing:"
  ++ prompt_line "- issue_type: The category of issue"
  ++ prompt_line "- description: Clear description of the problem"
  ++ prompt_line "- location: Where in the script the issue occurs"
  ++ prompt_line ("- severity: " ++ dq ++ "high" ++ dq ++ ", " ++ dq ++ "medium" ++ dq
                  ++ ", or " ++ dq ++ "low" ++ dq)
  ++ prompt_line "- suggestions: Array of suggestions to fix the issue"
  ++ prompt_line ""
  ++ prompt_line "Script content:"
  ++ prompt_line analysis_content
  ++ "            ".

(** The JSON payload inside the free-form response: what a fence tagged
    json encloses, else what the first pair of fences encloses, else the
    whole text. *)
Definition extract_json_str (response_text : string) : string :=
  let unfenced :=
    match Str.split_once "```" response_text with
    | Some (_, after) =>
        match Str.split_once "```" after with
        | Some (inner, _) => inner
        | None => response_text
        end
    | None => response_text
    end in
  match Str.split_once "```json" response_text with
  | Some (_, after) =>
      match Str.split_once "```" after with
      | Some (inner, _) => inner
      | None => unfenced
      end
  | None => unfenced
  end.

(** [item.get(key, default)]: the value stored under the key, of whatever
    type, or the default when the key is absent. *)
Definition item_get (item : list (string * json)) (key : string) (default : json)
  : json :=
  match Json.get key item with
  | Some v => v
  | None => default
  end.

Definition issue_of_item (item : list (string * json)) : ValidationIssue :=
  mkIssue (item_get item "issue_type" (JStr "unknown"))
          (item_get item "description" (JStr "No description provided"))
          (item_get item "location" (JStr "unknown"))
          (item_get item "severity" (JStr "medium"))
          (item_get item "suggestions" (JArr [])).

(** The conversion loop: the issues appended so far, and whether the loop
    ran to its end.  [item.get] exists on a dict only; on any other item it
    raises and the loop stops with what it had appended. *)
Fixpoint convert_items (items : list json) : list ValidationIssue * bool :=
  match items with
  | [] => ([], true)
  | JObj item :: rest =>
      let (l, ok) := convert_items rest in (issue_of_item item :: l, ok)
  | _ :: _ => ([], false)
  end.

Definition convert_result (result : json) : list ValidationIssue * bool :=
  match result with
  | JArr items => convert_items items
  | JObj d =>
      match Json.get "issues" d with
      | Some v =>
          match iterate v with
          | Some items => convert_items items
          | None => ([], false)
          end
      | None => ([], true)
      end
  | _ => ([], true)
  end.

Definition gemini_parsing_error : ValidationIssue :=
  mkIssue (JStr "gemini_parsing_error")
          (JStr "Error parsing Gemini analysis response")
          (JStr "analysis system")
          (JStr "low")
          (texts ["Check Gemini API service status"; "Try analyzing a shorter script"]).

Definition gemini_analysis_error (e : string) : ValidationIssue :=
  mkIssue (JStr "gemini_analysis_error")
          (JStr ("Error during Gemini analysis: " ++ e))
          (JStr "analysis system")
          (JStr "low")
          (texts ["Check Gemini API configuration"; "Verify API key is valid"]).

Definition _analyze_with_gemini (self : SceneValidator) (content : string)
  : list ValidationIssue :=
  match gemini_model self with
  | None => []
  | Some model =>
      let analysis_content :=
        if (max_length <? String.length content)%nat
        then Str.take max_length content ++ "...[truncated]"
        else content in
      match generate_content model (prompt analysis_content) with
      | CallRaises e => [gemini_analysis_error e]
      | Response None => [gemini_parsing_error]
      | Response (Some response_text) =>
          let json_str := Str.strip (extract_json_str response_text) in
          match Json.loads json_str with
          | None => [gemini_parsing_error]
          | Some result =>
              let (found, ok) := convert_result result in
              if ok then found else (found ++ [gemini_parsing_error])%list
          end
      end
  end.

(** [i.severity == level] *)
Definition is_severity (level : string) (i : ValidationIssue) : bool :=
  eq_str (severity i) level.

Definition empty_content_issue : ValidationIssue :=
  mkIssue (JStr "empty_content")
          (JStr "The script content is empty")
          (JStr "entire file")
          (JStr "high")
          (texts ["Add content to the script file"]).

Definition validate_content (self : SceneValidator) (content file_type : string)
  : ValidationResult :=
  match content with
  | EmptyString =>
      mkResult false [empty_content_issue] "Validation failed: Empty script content"
  | String _ _ =>
      let issues :=
        (_validate_scene_structure content file_type
         ++ _validate_continuity content
         ++ _validate_character_consistency content
         ++ match gemini_model self with
            | Some _ => _analyze_with_gemini self content
            | None => []
            end)%list in
      let valid := (List.length (filter (is_severity "high") issues) =? 0)%nat in
      let summary :=
        match issues with
        | [] => "No issues found in the script."
        | _ :: _ =>
            let high_count := List.length (filter (is_severity "high") issues) in
            let medium_count := List.length (filter (is_severity "medium") issues) in
            let low_count := List.length (filter (is_severity "low") issues) in
            "Found " ++ Str.of_nat (List.length issues) ++ " issues: "
            ++ Str.of_nat high_count ++ " high, "
            ++ Str.of_nat medium_count ++ " medium, "
            ++ Str.of_nat low_count ++ " low severity."
        end in
      mkResult valid issues summary
  end.

(** The files a program can see: whether [os.path.exists] finds a path,
    and what opening the path and reading it as text gives, the text or
    the exception that [open] or [read] raises (on a directory, on a file
    that may not be read or is not text in the encoding in use). *)
Record filesystem : Type := {
  path_exists : string -> bool;
  read_text : string -> outcome string
}.

(** The tag [validate_file] passes on: [os.path.splitext(file_path)[1].lower()]. *)
Definition file_ext (file_path : string) : string :=
  Str.lower (snd (splitext file_path)).

Definition validate_file (fs : filesystem) (self : SceneValidator)
  (file_path : string) : outcome ValidationResult :=
  if path_exists fs file_path then
    match read_text fs file_path with
    | Returns content => Returns (validate_content self content (file_ext file_path))
    | Raises e => Raises e
    end
  else Raises (FileNotFoundError ("Script file not found: " ++ file_path)).

(** ** The tools updater *)

Module Updater.

Inductive level : Type := INFO | WARNING | ERROR.

(** What a run leaves behind: records handed to the logger (which sends
    them to the console and to [update_log.txt]) and files written. *)
Inductive event : Type :=
| Log (lvl : level) (msg : string)
| WriteFile (path content : string).

Inductive error : Type := KeyError (key : string).

(** [str(e)] *)
Definition error_str (e : error) : string :=
  match e with KeyError k => "'" ++ k ++ "'" end.

(** The counters of [update_tools]: one dict, updated in place. *)
Record stats : Type := mkStats {
  tools_updated : nat;
  docs_updated : nat;
  code_updated : nat;
  errors : nat;
  new_tools : nat;
  tools_processed : nat
}.

(** A computation: from the counters as they stand, its result or the
    exception it raised, the counters as it leaves them, and the events
    it emitted, in order. *)
Definition M (A : Type) : Type := stats -> (A + error) * stats * list event.

Definition ret {A} (a : A) : M A := fun st => (inl a, st, []).
Definition raise {A} (e : error) : M A := fun st => (inr e, st, []).
Definition emit (ev : event) : M unit := fun st => (inl tt, st, [ev]).
Definition info (msg : string) : M unit := emit (Log INFO msg).
Definition modify (f : stats -> stats) : M unit := fun st => (inl tt, f st, []).
Definition read : M stats := fun st => (inl st, st, []).

Definition bind {A B} (m : M A) (k : A -> M B) : M B :=
  fun st =>
    match m st with
    | (inl a, st1, t) =>
        match k a st1 with
        | (r, st2, t') => (r, st2, (t ++ t')%list)
        end
    | (inr e, st1, t) => (inr e, st1, t)
    end.

(** [try: body except Exception as e: handler(e)] *)
Definition try_except {A} (body : M A) (handler : error -> M A) : M A :=
  fun st =>
    match body st with
    | (inl a, st1, t) => (inl a, st1, t)
    | (inr e, st1, t) =>
        match handler e st1 with
        | (r, st2, t') => (r, st2, (t ++ t')%list)
        end
    end.

Notation "x <- m ;; k" := (bind m (fun x => k))
  (at level 61, m at next level, right associativity).
Notation "m ;;; k" := (bind m (fun _ => k))
  (at level 61, right associativity).

(** [if c: body] *)
Definition when (c : bool) (body : M unit) : M unit :=
  if c then body else ret tt.

(** [for x in xs: body(x)] *)
Fixpoint for_each {A} (xs : list A) (body : A -> M unit) : M unit :=
  match xs with
  | [] => ret tt
  | x :: rest => body x ;;; for_each rest body
  end.

Definition tool : Type := list (string * string).

(** [tool.get(key)] *)
Fixpoint get (key : string) (t : tool) : option string :=
  match t with
  | [] => None
  | (k, v) :: t' => if String.eqb k key then Some v else get key t'
  end.

(** [tool[key]] *)
Definition item (t : tool) (key : string) : M string :=
  match get key t with
  | Some v => ret v
  | None => raise (KeyError key)
  end.

(** The truth value of an optional string such as [tool.get(key)]. *)
Definition truthy (v : option string) : bool :=
  match v with
  | Some (String _ _) => true
  | _ => false
  end.

Definition SPREADSHEET_ID : string := "1PR2yfkXdBnM4texzan_nBj79H9Fe_jpvaSZhBGuwTow".

Record ToolsUpdater : Type := {
  dry_run : bool;
  github_token : option string;
  google_api_key : option string
}.

(** [ToolsUpdater(config_path, dry_run)], the two credentials being what the
    configuration or else the environment holds: a missing one is reported
    and the updater is built all the same. *)
Definition init (token key : option string) (dry : bool) : M ToolsUpdater :=
  when (negb (truthy token))
       (emit (Log WARNING "GitHub token not found. Set GITHUB_TOKEN environment variable or provide in config.")) ;;;
  when (negb (truthy key))
       (emit (Log WARNING "Google API key not found. Set GOOGLE_API_KEY environment variable or provide in config.")) ;;;
  ret {| dry_run := dry; github_token := token; google_api_key := key |}.

Section Clock.

(** The readings of the clock: [datetime.now()] as a date and as a time
    stamp, and the elapsed seconds as [run] prints them. *)
Variables today timestamp elapsed : string.

Definition get_tools_data (self : ToolsUpdater) : M (list tool) :=
  info ("Retrieving tool data from spreadsheet " ++ SPREADSHEET_ID) ;;;
  let tools_data :=
    [[("Tool ID", "T001");
      ("Tool Name", "SceneValidator");
      ("Description", "Validates scene structure and continuity in scripts and media projects");
      ("Dependencies", "Gemini API, Google Cloud Storage (optional)");
      ("Last Updated", "2025-06-21");
      ("Repository Path", "tools/SceneValidator");
      ("Documentation URL", "https://docs.google.com/document/d/1H92VkAMqgW06w0sA0805nQ5FOTnCjeJ2rhIQRJ8gIp8");
      ("Integration Points", "StoryboardGen, ContinuityTracker, TimelineAssembler");
      ("Primary Technology", "Python + Gemini API");
      ("Implementation Status", "In Progress")]] in
  info ("Retrieved data for " ++ Str.of_nat (List.length tools_data) ++ " tools") ;;;
  ret tools_data.

Definition update_documentation (self : ToolsUpdater) (t : tool) : M bool :=
  name <- item t "Tool Name" ;;
  info ("Updating documentation for " ++ name) ;;;
  if dry_run self then
    name <- item t "Tool Name" ;;
    info ("[DRY RUN] Would update documentation for " ++ name) ;;;
    ret false
  else
    name <- item t "Tool Name" ;;
    info ("Documentation updated for " ++ name) ;;;
    ret true.

Definition ensure_tool_directory (self : ToolsUpdater) (t : tool) : M bool :=
  match get "Repository Path" t with
  | Some (String c r) =>
      let repo_path := String c r in
      if dry_run self then
        info ("[DRY RUN] Would ensure directory exists: " ++ repo_path) ;;;
        ret false
      else
        info ("Ensured directory exists: " ++ repo_path) ;;;
        ret true
  | _ => ret false
  end.

Definition update_tool_code (self : ToolsUpdater) (t : tool) : M bool :=
  name <- item t "Tool Name" ;;
  info ("Updating code for " ++ name) ;;;
  if dry_run self then
    name <- item t "Tool Name" ;;
    info ("[DRY RUN] Would update code for " ++ name) ;;;
    ret false
  else
    name <- item t "Tool Name" ;;
    info ("Code updated for " ++ name) ;;;
    ret true.

Definition update_last_updated (self : ToolsUpdater) (t : tool) : M bool :=
  name <- item t "Tool Name" ;;
  info ("Updating last updated timestamp for " ++ name ++ " to " ++ today) ;;;
  if dry_run self then
    name <- item t "Tool Name" ;;
    info ("[DRY RUN] Would update timestamp for " ++ name) ;;;
    ret false
  else
    name <- item t "Tool Name" ;;
    info ("Timestamp updated for " ++ name) ;;;
    ret true.

Definition bump_docs (st : stats) : stats :=
  mkStats (tools_updated st) (S (docs_updated st)) (code_updated st)
          (errors st) (new_tools st) (tools_processed st).
Definition bump_tools (st : stats) : stats :=
  mkStats (S (tools_updated st)) (docs_updated st) (code_updated st)
          (errors st) (new_tools st) (tools_processed st).
Definition bump_code (st : stats) : stats :=
  mkStats (tools_updated st) (docs_updated st) (S (code_updated st))
          (errors st) (new_tools st) (tools_processed st).
Definition bump_errors (st : stats) : stats :=
  mkStats (tools_updated st) (docs_updated st) (code_updated st)
          (S (errors st)) (new_tools st) (tools_processed st).

(** The body of the loop of [update_tools], inside its [try]. *)
Definition process_tool (self : ToolsUpdater) (t : tool) : M unit :=
  name <- item t "Tool Name" ;;
  info ("Processing tool: " ++ name) ;;;
  when (truthy (get "Documentation URL" t))
       (done <- update_documentation self t ;;
        when done (modify bump_docs)) ;;;
  when (truthy (get "Repository Path" t))
       (ensured <- ensure_tool_directory self t ;;
        when ensured (modify bump_tools) ;;;
        coded <- update_tool_code self t ;;
        when coded (modify bump_code)) ;;;
  when (negb (dry_run self))
       (update_last_updated self t ;;; ret tt).

Definition update_tools (self : ToolsUpdater) (tools_data : list tool) : M stats :=
  modify (fun _ => mkStats 0 0 0 0 0 (List.length tools_data)) ;;;
  for_each tools_data (fun t =>
    try_except (process_tool self t)
      (fun e =>
         name <- item t "Tool Name" ;;
         emit (Log ERROR ("Error updating tool " ++ name ++ ": " ++ error_str e)) ;;;
         modify bump_errors)) ;;;
  read.

(** The two symbols that open the closing remark lie beyond the alphabet
    of this model; they stand here as the bytes the file receives. *)
Definition generate_summary_report (self : ToolsUpdater) (st : stats) : string :=
  "# Media Automation Tools Update Report" ++ br ++ br
  ++ "**Generated:** " ++ timestamp ++ br ++ br
  ++ "## Update Statistics" ++ br ++ br
  ++ "- **Tools Processed:** " ++ Str.of_nat (tools_processed st) ++ br
  ++ "- **Tools Updated:** " ++ Str.of_nat (tools_updated st) ++ br
  ++ "- **Documentation Updated:** " ++ Str.of_nat (docs_updated st) ++ br
  ++ "- **Code Updated:** " ++ Str.of_nat (code_updated st) ++ br
  ++ "- **New Tools Added:** " ++ Str.of_nat (new_tools st) ++ br
  ++ "- **Errors Encountered:** " ++ Str.of_nat (errors st) ++ br ++ br
  ++ (if (0 <? errors st)%nat
      then "⚠️ Some errors were encountered during the update process. Check the logs for details."
      else "✅ Update completed successfully with no errors.") ++ br ++ br
  ++ "## Details" ++ br ++ br
  ++ "For detailed information about each tool, please refer to the [tracking spreadsheet](https://docs.google.com/spreadsheets/d/1PR2yfkXdBnM4texzan_nBj79H9Fe_jpvaSZhBGuwTow)."
  ++ br ++ br.

Definition send_den_message (self : ToolsUpdater) (summary : string) : M bool :=
  info "Sending summary message to Den" ;;;
  if dry_run self then
    info ("[DRY RUN] Would send message to Den:" ++ br ++ summary) ;;;
    ret false
  else
    info "Summary message sent to Den" ;;;
    ret true.

Definition run (self : ToolsUpdater) : M unit :=
  info "Starting tools update process" ;;;
  try_except
    (tools_data <- get_tools_data self ;;
     st <- update_tools self tools_data ;;
     let summary := generate_summary_report self st in
     send_den_message self summary ;;;
     emit (WriteFile "last_update_summary.md" summary) ;;;
     info ("Update process completed in " ++ elapsed ++ " seconds"))
    (fun e =>
       emit (Log ERROR ("Error in update process: " ++ error_str e)) ;;;
       raise e).

End Clock.

(** The files an outcome wrote. *)
Definition writes {A} (r : (A + error) * stats * list event) : list string :=
  flat_map (fun ev => match ev with WriteFile p _ => [p] | Log _ _ => [] end) (snd r).

Definition zero : stats := mkStats 0 0 0 0 0 0.

End Updater.

(** ** The properties, in the words of the specification *)

Definition no_model : SceneValidator := {| gemini_model := None |}.

(** A line that, once trimmed, starts with [INT.] or [EXT.]. *)
Definition scene_header (l : string) : Prop :=
  prefix "INT." (Str.strip l) = true \/ prefix "EXT." (Str.strip l) = true.

Definition missing_scene_headers : ValidationIssue :=
  mkIssue (JStr "missing_scene_headers")
          (JStr "No standard scene headers (INT./EXT.) found")
          (JStr "entire script")
          (JStr "medium")
          (texts ["Add proper scene headers starting with INT. or EXT.";
                  "Format scene headings according to screenplay standards"]).

(** The number of issues of one severity. *)
Fixpoint count_severity (level : string) (l : list ValidationIssue) : nat :=
  match l with
  | [] => 0
  | i :: l' =>
      match severity i with
      | JStr s => if String.eqb s level
                  then S (count_severity level l') else count_severity level l'
      | _ => count_severity level l'
      end
  end.

(** The summary that restates the counts: the total, then the count at
    each severity. *)
Definition counts_summary (l : list ValidationIssue) : string :=
  "Found " ++ Str.of_nat (List.length l) ++ " issues: "
  ++ Str.of_nat (count_severity "high" l) ++ " high, "
  ++ Str.of_nat (count_severity "medium" l) ++ " medium, "
  ++ Str.of_nat (count_severity "low" l) ++ " low severity.".

(** The tag the specification describes for a path: the extension in lower
    case, or the generic tag (the default of [validate_content]) when the
    path has none. *)
Definition described_tag (file_path : string) : string :=
  match snd (splitext file_path) with
  | EmptyString => ".txt"
  | String c r => Str.lower (String c r)
  end.


(** Whether the analysis meets an error: the call raises, the text of the
    response cannot be read, the payload is not JSON, or an item of the
    decoded list cannot be converted. *)
Definition analysis_fails (self : SceneValidator) (content : string) : Prop :=
  match gemini_model self with
  | None => False
  | Some model =>
      let analysis_content :=
        if (max_length <? String.length content)%nat
        then Str.take max_length content ++ "...[truncated]"
        else content in
      match generate_content model (prompt analysis_content) with
      | CallRaises _ => True
      | Response None => True
      | Response (Some response_text) =>
          match Json.loads (Str.strip (extract_json_str response_text)) with
          | None => True
          | Some result => snd (convert_result result) = false
          end
      end
  end.

(** An issue that reports a failure of the analysis itself. *)
Definition synthetic (i : ValidationIssue) : Prop :=
  severity i = JStr "low"
  /\ (issue_type i = JStr "gemini_analysis_error"
      \/ issue_type i = JStr "gemini_parsing_error").

(** An updater built for a dry run, with no credentials. *)
Definition dry_updater : Updater.ToolsUpdater :=
  {| Updater.dry_run := true;
     Updater.github_token := None;
     Updater.google_api_key := None |}.

(** A trace that holds nothing but log records. *)
Definition only_logs (tr : list Updater.event) : Prop :=
  forall ev, In ev tr -> exists l m, ev = Updater.Log l m.

(** Two states of the counters that agree on the three update counts. *)
Definition same_updates (a b : Updater.stats) : Prop :=
  Updater.tools_updated a = Updater.tools_updated b
  /\ Updater.docs_updated a = Updater.docs_updated b
  /\ Updater.code_updated a = Updater.code_updated b.

(** A number as [json.loads] reads one: a text that the number scanner
    returns for some input, or one of the three names of the numbers that
    are not finite. *)
Definition number (n : string) : Prop :=
  (exists s r, Json.scan_number s = Some (n, r))
  \/ n = "NaN" \/ n = "Infinity" \/ n = "-Infinity".

(** A value of the kinds that [json.loads] returns and [json.dumps]
    prints: [None], a boolean, a number, a string, a list of such values,
    or a dict of such values, which holds each key once. *)
#[local] Unset Elimination Schemes.
Inductive jsonable : json -> Prop :=
| jsonable_null : jsonable JNull
| jsonable_bool b : jsonable (JBool b)
| jsonable_num n : number n -> jsonable (JNum n)
| jsonable_str s : jsonable (JStr s)
| jsonable_arr l : Forall jsonable l -> jsonable (JArr l)
| jsonable_obj d :
    NoDup (map fst d) -> Forall (fun kv => jsonable (snd kv)) d -> jsonable (JObj d).

#[local] Set Elimination Schemes.

(** An issue, and a result, whose fields hold such values. *)
Definition issue_holds_json (i : ValidationIssue) : Prop :=
  jsonable (issue_type i) /\ jsonable (description i) /\ jsonable (location i)
  /\ jsonable (severity i) /\ jsonable (suggestions i).

Definition holds_json (r : ValidationResult) : Prop :=
  Forall issue_holds_json (issues r).

(** An issue whose fields are of the types the dataclass declares: four
    strings and a list of strings. *)
Definition as_declared (i : ValidationIssue) : Prop :=
  (exists s, issue_type i = JStr s) /\ (exists s, description i = JStr s)
  /\ (exists s, location i = JStr s) /\ (exists s, severity i = JStr s)
  /\ (exists l, suggestions i = texts l).

(** An issue that the HTML table can show: its severity is a string, and
    its suggestions can be iterated. *)
Definition renderable (i : ValidationIssue) : Prop :=
  (exists s, severity i = JStr s)
  /\ (exists items, iterate (suggestions i) = Some items).

(** A text that ends a number written before it: the empty text, or one
    that starts with a character no number goes on with. *)
Definition stops (rest : string) : bool :=
  match rest with
  | EmptyString => true
  | String c _ =>
      negb (Json.is_digit c || Ascii.eqb c "." || Ascii.eqb c "e" || Ascii.eqb c "E")
  end.

(** A text that starts with a digit, and a text made of digits only. *)
Definition digit_head (s : string) : bool :=
  match s with
  | String c _ => Json.is_digit c
  | EmptyString => false
  end.

Fixpoint all_digits (s : string) : bool :=
  match s with
  | String c r => Json.is_digit c && all_digits r
  | EmptyString => true
  end.

(** Scanning the text of [v], followed by a text that would end a number,
    gives [v] back and leaves what follows, as long as the fuel exceeds the
    length of the text. *)
Definition roundtrips (v : json) : Prop :=
  forall lvl rest fuel,
    stops rest = true ->
    String.length (Json.dumps_at lvl v) < fuel ->
    Json.scan_once fuel (Json.dumps_at lvl v ++ rest) = Some (v, rest).

(** The text of [v] starts with a character that is neither white space
    nor a closing bracket. *)
Definition headed (v : json) : Prop :=
  forall lvl, exists c t,
    Json.dumps_at lvl v = String c t
    /\ Json.is_ws c = false /\ Ascii.eqb c "]" = false.

(** The text of one member from just after the opening quote of its key. *)
Definition member_text (lvl : nat) (k : string) (x : json) (tail : string) : string :=
  Json.escape k ++ String Json.quote (String ":" (String " " (Json.dumps_at (S lvl) x ++ tail))).


(** What a reader of the decoded report finds in it: the validity flag,
    and the number of issues of one severity. *)
Definition parsed_valid (doc : json) : option bool :=
  match doc with
  | JObj d =>
      match Json.get "valid" d with
      | Some (JBool b) => Some b
      | _ => None
      end
  | _ => None
  end.

Definition parsed_severity (level : string) (issue : json) : bool :=
  match issue with
  | JObj m =>
      match Json.get "severity" m with
      | Some (JStr s) => s =? level
      | _ => false
      end
  | _ => false
  end.

Definition parsed_severity_count (level : string) (doc : json) : option nat :=
  match doc with
  | JObj d =>
      match Json.get "issues" d with
      | Some (JArr l) => Some (List.length (filter (parsed_severity level) l))
      | _ => None
      end
  | _ => None
  end.

(** ** The command line of the validator *)

Module Cli.

(** [--format] accepts two choices. *)
Inductive format_choice : Type := json_format | html_format.

Definition format_name (f : format_choice) : string :=
  match f with json_format => "json" | html_format => "html" end.

(** The parsed command line. *)
Record arguments : Type := {
  file : string;
  config : option string;
  format : format_choice
}.

(** What the program leaves: the text it printed and its exit status. *)
Record exit : Type := { stdout : string; status : nat }.

Section Service.

(** Whether the service library could be imported; what it does with the
    key and the model name of the configuration, [genai.configure] followed
    by [genai.GenerativeModel], which gives a model or raises; the text of
    the [JSONDecodeError] for a document that is not JSON; [str] on values
    that are not strings; and what [print] does with a text: nothing to
    report, or the exception it raises when the terminal cannot take the
    text. *)
Variable GEMINI_AVAILABLE : bool.
Variable make_model : json -> json -> outcome GenerativeModel.
Variable decode_error : string -> string.
Variable py_str : json -> string.
Variable print_error : string -> option exn.

(** [self.config] after the first lines of [__init__]: the empty dict
    unless a path is given and exists; then the file is opened, read and
    decoded, and each of the three steps can raise. *)
Definition load_config (fs : filesystem) (config_path : option string)
  : outcome json :=
  match config_path with
  | Some (String c p) =>
      if path_exists fs (String c p) then
        match read_text fs (String c p) with
        | Returns text =>
            match Json.loads text with
            | Some cfg => Returns cfg
            | None => Raises (JSONDecodeError (decode_error text))
            end
        | Raises e => Raises e
        end
      else Returns (JObj [])
  | _ => Returns (JObj [])
  end.

Definition is_key_name (v : json) : bool := eq_str v "gemini_api_key".

(** [SceneValidator(config_path)].  ['gemini_api_key' in self.config] looks
    for a key in a dict, an item in a list, a substring in a string, and
    raises on anything else; [self.config['gemini_api_key']] exists on a
    dict only. *)
Definition __init__ (fs : filesystem) (config_path : option string)
  : outcome SceneValidator :=
  match load_config fs config_path with
  | Raises e => Raises e
  | Returns cfg =>
      if GEMINI_AVAILABLE then
        match cfg with
        | JObj d =>
            match Json.get "gemini_api_key" d with
            | Some key =>
                let model_name := item_get d "gemini_model" (JStr "gemini-pro") in
                match make_model key model_name with
                | Returns model => Returns {| gemini_model := Some model |}
                | Raises e => Raises e
                end
            | None => Returns {| gemini_model := None |}
            end
        | JArr l =>
            if existsb is_key_name l
            then Raises (TypeError "list indices must be integers or slices, not str")
            else Returns {| gemini_model := None |}
        | JStr s =>
            if Str.contains "gemini_api_key" s
            then Raises (TypeError "string indices must be integers, not 'str'")
            else Returns {| gemini_model := None |}
        | v =>
            Raises (TypeError ("argument of type '" ++ type_name v
                               ++ "' is not iterable"))
        end
      else Returns {| gemini_model := None |}
  end.

(** The body of the [try]: build the validator, validate the file, render
    the report and print it. *)
Definition attempt (fs : filesystem) (args : arguments) : outcome string :=
  match __init__ fs (config args) with
  | Raises e => Raises e
  | Returns validator =>
      match validate_file fs validator (file args) with
      | Raises e => Raises e
      | Returns result =>
          match get_report py_str result (format_name (format args)) with
          | Raises e => Raises e
          | Returns report =>
              match print_error report with
              | Some e => Raises e
              | None => Returns report
              end
          end
      end
  end.

(** The program.  On any exception of the body it prints the text of the
    exception after [Error: ] and leaves with status 1; when that line
    cannot be printed either, the exception of [print] ends the program,
    and the status is 1 as well. *)
Definition main (fs : filesystem) (args : arguments) : exit :=
  match attempt fs args with
  | Returns report => {| stdout := report ++ br; status := 0 |}
  | Raises e =>
      let line := "Error: " ++ exn_text e in
      match print_error line with
      | None => {| stdout := line ++ br; status := 1 |}
      | Some _ => {| stdout := EmptyString; status := 1 |}
      end
  end.

End Service.

End Cli.

(** ** The storyboard generator *)

Module Storyboard.

(** [s.find(c)]: the index of the first [c], if any. *)
Fixpoint find (c : ascii) (s : string) : option nat :=
  match s with
  | EmptyString => None
  | String d r =>
      if Ascii.eqb d c then Some 0
      else match find c r with
           | Some i => Some (S i)
           | None => None
           end
  end.

(** [s.split()]: the maximal runs of characters that are not white space. *)
Fixpoint split (s : string) : list string :=
  match s with
  | EmptyString => []
  | String c r =>
      if Str.isspace c then split r
      else match r with
           | EmptyString => [String c EmptyString]
           | String d _ =>
               if Str.isspace d then String c EmptyString :: split r
               else match split r with
                    | w :: ws => String c w :: ws
                    | [] => [String c EmptyString]
                    end
           end
  end.

(** [os.path.join(a, b)] (POSIX). *)
Definition path_join (a b : string) : string :=
  if prefix "/" b then b
  else match a with
       | EmptyString => b
       | _ => if String.eqb (Str.drop (String.length a - 1) a) "/"
              then a ++ b else a ++ "/" ++ b
       end.

Record StoryboardFrame : Type := mkFrame {
  scene_number : string;
  description : string;
  image_path : option string;
  camera_angle : string;
  camera_movement : string;
  characters : list string;
  notes : string
}.

Record Storyboard : Type := mkStoryboard {
  title : string;
  frames : list StoryboardFrame;
  output_dir : string
}.

(** *** Reading the scenes *)

Definition default_scenes : json :=
  JArr [JObj [("scene_number", JStr "1");
              ("description", JStr "Default scene");
              ("characters", JArr [])]].

Definition content_limit : nat := 50 * 1000.

Definition prompt_line (s : string) : string := "        " ++ s ++ br.

Definition parse_prompt (script_content : string) : string :=
  br
  ++ prompt_line "Parse the following script into a structured format with scenes."
  ++ prompt_line "For each scene, identify:"
  ++ prompt_line "1. Scene number"
  ++ prompt_line "2. Location (INT/EXT)"
  ++ prompt_line "3. Time of day"
  ++ prompt_line "4. Description"
  ++ prompt_line "5. Characters present"
  ++ prompt_line "6. Key visual elements"
  ++ prompt_line "7. Camera suggestions"
  ++ prompt_line ""
  ++ prompt_line "Format your response as a JSON array of scene objects."
  ++ prompt_line ""
  ++ prompt_line "Script content:"
  ++ prompt_line (Str.take content_limit script_content
                  ++ "  # Limit content length for API")
  ++ "        ".

(** The scenes read off the text of a response: what [json.loads] makes of
    the text from the first opening bracket to the last closing one, and
    the default scene when there is no such text or it is not JSON. *)
Definition scenes_of_text (scenes_text : string) : json :=
  let end_idx :=
    match Str.rfind "]" scenes_text with
    | Some i => S i
    | None => 0
    end in
  match find "[" scenes_text with
  | Some start_idx =>
      if (start_idx <? end_idx)%nat then
        let json_text :=
          Str.take (end_idx - start_idx) (Str.drop start_idx scenes_text) in
        match Json.loads json_text with
        | Some scenes => scenes
        | None => default_scenes
        end
      else default_scenes
  | None => default_scenes
  end.

(** [len(scenes)], which the last log record needs: a list, a string and
    a dict have a length. *)
Definition sized (v : json) : bool :=
  match v with
  | JArr _ | JStr _ | JObj _ => true
  | _ => false
  end.

(** [parse_script]: the file is read and the service called outside the
    [try], so whatever [open] or the call raises propagates; a response
    whose text cannot be read gives the default scene; and the scenes must
    have a length before they are returned. *)
Definition parse_script (fs : filesystem) (model : GenerativeModel)
  (script_path : string) : outcome json :=
  match read_text fs script_path with
  | Raises e => Raises e
  | Returns script_content =>
      match generate_content model (parse_prompt script_content) with
      | CallRaises e => Raises (LibraryError e)
      | Response text =>
          let scenes :=
            match text with
            | Some scenes_text => scenes_of_text scenes_text
            | None => default_scenes
            end in
          if sized scenes then Returns scenes
          else Raises (TypeError ("object of type '" ++ type_name scenes
                                  ++ "' has no len()"))
      end
  end.

(** *** The placeholder image: the wrapped description *)

Section Wrap.

(** Whether [d.textlength(text, font=small_font)] exceeds the 760 pixels of
    a line. *)
Variable too_wide : string -> bool.

(** The loop that fills lines with the words of the description: the lines
    drawn so far, each with its height on the image, the line being filled
    and the height it will be drawn at. *)
Fixpoint fill_lines (words : list string) (line : string) (y_pos : Z)
  : list (Z * string) * string * Z :=
  match words with
  | [] => ([], line, y_pos)
  | word :: rest =>
      let test_line := line ++ word ++ " " in
      if too_wide test_line then
        match fill_lines rest (word ++ " ") (y_pos + 20)%Z with
        | (drawn, l, y) => ((y_pos, line) :: drawn, l, y)
        end
      else fill_lines rest test_line y_pos
  end.

(** The description as [_generate_image_for_scene] draws it from height 90
    on: every line with its height, and the height of the last one. *)
Definition draw_description (description : string) : list (Z * string) * Z :=
  match fill_lines (split description) EmptyString 90%Z with
  | (drawn, line, y_pos) => ((drawn ++ [(y_pos, line)])%list, y_pos)
  end.

End Wrap.

(** *** The PDF export *)

Inductive canvas_op : Type :=
| SetFont (name : string) (size : Z)
| DrawString (x y : Z) (text : string)
| ShowPage
| DrawImage (path : string) (x y width height : Z)
| DrawText (x y : Z) (lines : list string)
| Save.

Definition page_height : Z := 792.

Section Pdf.

(** The date as [strftime] prints it, the paths that exist, and the images
    that [drawImage] manages to draw (it raises on the others, which the
    export survives). *)
Variable date_str : string.
Variable path_exists : string -> bool.
Variable drawable : string -> bool.

Definition has_image (frame : StoryboardFrame) : option string :=
  match image_path frame with
  | Some (String c p) => if path_exists (String c p) then Some (String c p) else None
  | _ => None
  end.

(** One turn of the loop over the frames: the operations it sends to the
    canvas, and [y_pos] and [current_frame] as it leaves them. *)
Definition draw_frame (frame : StoryboardFrame) (y_pos : Z) (current_frame : nat)
  : list canvas_op * Z * nat :=
  let break := (0 <? current_frame)%nat && (current_frame mod 3 =? 0)%nat in
  let y0 := if break then (page_height - 72)%Z else y_pos in
  let y1 := (y0 - 15)%Z in
  let image_ops :=
    match has_image frame with
    | Some path =>
        if drawable path
        then ([DrawImage path 72 (y1 - 100) 450 100], (y1 - 110)%Z)
        else ([], (y1 - 20)%Z)
    | None => ([], y1)
    end in
  let y2 := snd image_ops in
  let text_lines :=
    app ["Description: " ++ Str.take 200 (description frame) ++ "...";
         "";
         "Camera: " ++ camera_angle frame ++ ", " ++ camera_movement frame;
         "Characters: " ++ String.concat ", " (characters frame)]
        match notes frame with
        | EmptyString => []
        | String _ _ => ["Notes: " ++ notes frame]
        end in
  (app (if break then [ShowPage] else [])
       (SetFont "Helvetica-Bold" 12
        :: DrawString 72 y0 ("Scene " ++ scene_number frame)
        :: app (fst image_ops)
               [SetFont "Helvetica" 10; DrawText 72 y2 text_lines]),
   (y2 - 60)%Z, S current_frame).

Fixpoint draw_frames (fs : list StoryboardFrame) (y_pos : Z) (current_frame : nat)
  : list canvas_op :=
  match fs with
  | [] => []
  | frame :: rest =>
      match draw_frame frame y_pos current_frame with
      | (ops, y, n) => (ops ++ draw_frames rest y n)%list
      end
  end.

(** [export_pdf]: the path of the document and what is drawn in it. *)
Definition export_pdf (self : Storyboard) (output_path : option string)
  : string * list canvas_op :=
  let path :=
    match output_path with
    | Some (String c p) => String c p
    | _ => path_join (output_dir self) (title self ++ "_storyboard.pdf")
    end in
  (path,
   SetFont "Helvetica-Bold" 18
   :: DrawString 72 (page_height - 72) ("Storyboard: " ++ title self)
   :: SetFont "Helvetica" 12
   :: DrawString 72 (page_height - 90) ("Generated: " ++ date_str)
   :: app (draw_frames (frames self) (page_height - 130) 0) [Save]).

End Pdf.

End Storyboard.

(** ** Further properties, in plain terms *)

(** The issues converted from the items of the response, before any
    failure is reported. *)
Definition converted (self : SceneValidator) (content : string)
  : list ValidationIssue :=
  match gemini_model self with
  | None => []
  | Some model =>
      let analysis_content :=
        if (max_length <? String.length content)%nat
        then Str.take max_length content ++ "...[truncated]"
        else content in
      match generate_content model (prompt analysis_content) with
      | Response (Some response_text) =>
          match Json.loads (Str.strip (extract_json_str response_text)) with
          | Some result => fst (convert_result result)
          | None => []
          end
      | _ => []
      end
  end.

Definition is_object (v : json) : bool :=
  match v with JObj _ => true | _ => false end.

(** The objects that open a list of items, up to the first item that is
    not an object. *)
Fixpoint leading_objects (items : list json) : list (list (string * json)) :=
  match items with
  | JObj item :: rest => item :: leading_objects rest
  | _ => []
  end.

(** A text that holds no backtick. *)
Fixpoint no_backtick (s : string) : bool :=
  match s with
  | String c r => negb (Ascii.eqb c "`") && no_backtick r
  | EmptyString => true
  end.

(** A validator whose service always answers with the same text. *)
Definition answering (response_text : string) : SceneValidator :=
  {| gemini_model :=
       Some {| generate_content := fun _ => Response (Some response_text) |} |}.

(** A text made of line breaks and printable ASCII characters only. *)
Fixpoint plain_ascii (s : string) : bool :=
  match s with
  | String c r =>
      ((Str.code c =? 10)%nat || Str.between 32 126 c) && plain_ascii r
  | EmptyString => true
  end.

(** A tool that has a name. *)
Definition named (t : Updater.tool) : bool :=
  match Updater.get "Tool Name" t with Some _ => true | None => false end.

(** The number of tools for which a key holds a non-empty value. *)
Definition count_with (key : string) (tools : list Updater.tool) : nat :=
  List.length (filter (fun t => Updater.truthy (Updater.get key t)) tools).

(** The heights at which an operation draws. *)
Definition heights (op : Storyboard.canvas_op) : list Z :=
  match op with
  | Storyboard.DrawString _ y _ => [y]
  | Storyboard.DrawImage _ _ y _ h => [y; (y + h)%Z]
  | Storyboard.DrawText _ y _ => [y]
  | _ => []
  end.



(** The text between the first opening bracket of a text and its last
    closing bracket, both included, when the one comes before the other. *)
Definition bracketed (text : string) : option string :=
  match Storyboard.find "[" text, Str.rfind "]" text with
  | Some i, Some j =>
      if (i <=? j)%nat then Some (Str.take (S j - i) (Str.drop i text)) else None
  | _, _ => None
  end.

(** A model that always answers with the same text. *)
Definition saying (text : string) : GenerativeModel :=
  {| generate_content := fun _ => Response (Some text) |}.

(** A text in which the character [c] does not occur. *)
Fixpoint without (c : ascii) (s : string) : bool :=
  match s with
  | String d r => negb (Ascii.eqb d c) && without c r
  | EmptyString => true
  end.

(** A height inside the printable part of a page. *)
Definition on_page (h : Z) : Prop := (167 <= h <= 720)%Z.

(** What the loop of [export_pdf] keeps true of [y_pos] before frame
    number [n]: at most three frames' worth below the top of the page. *)
Definition page_room (y_pos : Z) (n : nat) : Prop :=
  (y_pos <= 720)%Z
  /\ (662 - 185 * Z.of_nat (if (n =? 0)%nat then 0
                            else if (n mod 3 =? 0)%nat then 3 else n mod 3)
      <= y_pos)%Z.

(** A line of the wrapped description that is as it should be: within the
    width of the image, or made of a single word that had to be placed
    alone, or the empty line that precedes a first word too wide. *)
Definition line_fits (too_wide : string -> bool) (words : list string)
  (line : string) : Prop :=
  line = "" \/ too_wide line = false \/ exists w, In w words /\ line = w ++ " ".

(** A file system that holds one text file. *)
Definition single_file (path text : string) : filesystem :=
  {| path_exists := String.eqb path;
     read_text := fun p =>
       if p =? path then Returns text
       else Raises (FileNotFoundError
                      ("[Errno 2] No such file or directory: '" ++ p ++ "'")) |}.

(** A configuration file that names a key, and a library that builds
    models that never answer. *)
Definition one_config : filesystem :=
  single_file "config.json"
    ("{" ++ dq ++ "gemini_api_key" ++ dq ++ ": " ++ dq ++ "k" ++ dq ++ "}").

Definition mute_model (key name : json) : outcome GenerativeModel :=
  Returns {| generate_content := fun _ => Response None |}.

(** A trace made of log records of level [INFO] only. *)
Definition all_info (tr : list Updater.event) : Prop :=
  forall ev, In ev tr -> exists m, ev = Updater.Log Updater.INFO m.

(** The counters after a tool that has a name went through the loop of
    [update_tools]. *)
Definition counted (self : Updater.ToolsUpdater) (t : Updater.tool)
  (st : Updater.stats) : Updater.stats :=
  let live := negb (Updater.dry_run self) in
  let docs := live && Updater.truthy (Updater.get "Documentation URL" t) in
  let repo := live && Updater.truthy (Updater.get "Repository Path" t) in
  Updater.mkStats
    ((if repo then 1 else 0) + Updater.tools_updated st)
    ((if docs then 1 else 0) + Updater.docs_updated st)
    ((if repo then 1 else 0) + Updater.code_updated st)
    (Updater.errors st) (Updater.new_tools st) (Updater.tools_processed st).

(** ** Proofs *)

(** *** Text *)

Lemma lower_char_idem c : Str.lower_char (Str.lower_char c) = Str.lower_char c.
Proof.
  destruct c as [[] [] [] [] [] [] [] []]; reflexivity.
Qed.

Lemma lower_idem s : Str.lower (Str.lower s) = Str.lower s.
Proof.
  induction s as [|c s IH]; simpl; [reflexivity|].
  now rewrite lower_char_idem, IH.
Qed.

Lemma take_drop n s : Str.take n s ++ Str.drop n s = s.
Proof.
  revert s; induction n as [|n IH]; intros [|c s]; simpl; try reflexivity.
  now rewrite IH.
Qed.

Lemma rfind_drop c s i :
  Str.rfind c s = Some i -> exists r, Str.drop i s = String c r.
Proof.
  revert i; induction s as [|d s IH]; simpl; intros i H; [discriminate|].
  destruct (Str.rfind c s) as [j|] eqn:E.
  - injection H as <-. simpl. now apply IH.
  - destruct (Ascii.eqb d c) eqn:Ed; [|discriminate].
    injection H as <-. apply Ascii.eqb_eq in Ed; subst. now exists s.
Qed.

Lemma splitext_join p : fst (splitext p) ++ snd (splitext p) = p.
Proof.
  unfold splitext.
  destruct (Str.rfind "." p) as [dot|]; simpl.
  - destruct (_ && _); simpl; [apply take_drop|].
    clear; induction p; simpl; congruence.
  - clear; induction p; simpl; congruence.
Qed.

Lemma splitext_dot p :
  snd (splitext p) = "" \/ exists r, snd (splitext p) = String "." r.
Proof.
  unfold splitext.
  destruct (Str.rfind "." p) as [dot|] eqn:E; simpl; [|now left].
  destruct (_ && _); simpl; [|now left].
  right. now apply rfind_drop.
Qed.

(** *** The JSON round trip *)

Lemma append_assoc (a b c : string) : (a ++ b) ++ c = a ++ (b ++ c).
Proof.
  induction a as [|x a IH]; simpl; [reflexivity|]. now rewrite IH.
Qed.

Lemma append_nil_r (a : string) : a ++ "" = a.
Proof.
  induction a as [|x a IH]; simpl; [reflexivity|]. now rewrite IH.
Qed.

Lemma length_append (a b : string) :
  String.length (a ++ b) = String.length a + String.length b.
Proof.
  induction a as [|x a IH]; simpl; [reflexivity|]. now rewrite IH.
Qed.

Lemma scanstring_escape_char c t :
  Json.scanstring (Json.escape_char c ++ t) = Json.cons_char c (Json.scanstring t).
Proof.
  destruct c as [[] [] [] [] [] [] [] []]; reflexivity.
Qed.

Lemma scanstring_escape s rest :
  Json.scanstring (Json.escape s ++ String Json.quote rest) = Some (s, rest).
Proof.
  induction s as [|c s IH]; [reflexivity|].
  cbn [Json.escape]. rewrite append_assoc, scanstring_escape_char, IH. reflexivity.
Qed.

Lemma skip_ws_spaces n t : Json.skip_ws (Json.spaces n ++ t) = Json.skip_ws t.
Proof.
  induction n as [|n IH]; [reflexivity|]. cbn [Json.spaces]. exact IH.
Qed.

Lemma skip_ws_nl lvl t : Json.skip_ws (Json.nl lvl ++ t) = Json.skip_ws t.
Proof.
  unfold Json.nl. cbn. apply skip_ws_spaces.
Qed.

Lemma json_induction (P : json -> Prop) :
  P JNull -> (forall b, P (JBool b)) -> (forall n, P (JNum n)) ->
  (forall s, P (JStr s)) ->
  (forall l, Forall P l -> P (JArr l)) ->
  (forall d, Forall (fun kv => P (snd kv)) d -> P (JObj d)) ->
  forall v, P v.
Proof.
  intros Hnull Hbool Hnum Hstr Harr Hobj.
  fix IH 1. intros [| b | n | s | l | d].
  - apply Hnull.
  - apply Hbool.
  - apply Hnum.
  - apply Hstr.
  - apply Harr. induction l as [|x l IHl]; constructor; [apply IH|apply IHl].
  - apply Hobj. induction d as [|[k x] d IHd]; constructor; [apply IH|apply IHd].
Qed.

(** **** Numbers *)

(** What the digit scanner splits off is a run of digits, and what it
    leaves does not start with one. *)
Lemma digits_spec s : forall d t,
  Json.digits s = (d, t) ->
  s = d ++ t /\ all_digits d = true /\ digit_head t = false.
Proof.
  induction s as [|c s IH]; cbn [Json.digits]; intros d t.
  - intros [= <- <-]. repeat split.
  - destruct (Json.is_digit c) eqn:E.
    + destruct (Json.digits s) as [d' t'].
      intros [= <- <-]. destruct (IH _ _ eq_refl) as (-> & H1 & H2).
      cbn. rewrite E. repeat split; assumption.
    + intros [= <- <-]. cbn. rewrite E. repeat split.
Qed.

Lemma digits_app d X :
  all_digits d = true -> digit_head X = false -> Json.digits (d ++ X) = (d, X).
Proof.
  induction d as [|c d IH]; cbn [all_digits String.append Json.digits].
  - intros _ H. destruct X as [|x X]; [reflexivity|].
    cbn in H. cbn [Json.digits]. now rewrite H.
  - intros H HX. apply andb_true_iff in H as [Hc Hd].
    now rewrite Hc, (IH Hd HX).
Qed.

Lemma digit_is_no_sign c :
  Json.is_digit c = true ->
  Ascii.eqb c "-" = false /\ Ascii.eqb c "+" = false /\ Ascii.eqb c "." = false
  /\ Ascii.eqb c "e" = false /\ Ascii.eqb c "E" = false
  /\ Ascii.eqb c Json.quote = false /\ Ascii.eqb c "{" = false
  /\ Ascii.eqb c "[" = false /\ Ascii.eqb c "]" = false
  /\ Json.is_ws c = false.
Proof.
  destruct c as [[] [] [] [] [] [] [] []]; cbn; intros H;
    try discriminate; repeat split.
Qed.

Lemma scan_int_app s i r X :
  Json.scan_int s = Some (i, r) -> digit_head X = false ->
  Json.scan_int (i ++ X) = Some (i, X)
  /\ exists c t, i = String c t /\ (c = "-"%char \/ Json.is_digit c = true).
Proof.
  unfold Json.scan_int. destruct s as [|c s]; [discriminate|].
  destruct (Ascii.eqb_spec c "-") as [->|Hc].
  - destruct s as [|c1 r1]; [discriminate|].
    destruct (Ascii.eqb_spec c1 "0") as [->|H0].
    + intros [= <- <-] HX. split; [reflexivity|]. exists "-"%char, "0". now split; [|left].
    + destruct (Json.is_digit c1) eqn:E; [|discriminate].
      destruct (Json.digits r1) as [d t] eqn:D.
      intros [= <- <-] HX. destruct (digits_spec _ _ _ D) as (_ & Hd & _).
      split; [|exists "-"%char, (String c1 d); now split; [|left]].
      cbn [String.append]. change (Ascii.eqb "-" "-") with true. cbv iota.
      apply Ascii.eqb_neq in H0. rewrite H0, E, (digits_app d X Hd HX). reflexivity.
  - destruct (Ascii.eqb_spec c "0") as [->|H0].
    + intros [= <- <-] HX. split; [reflexivity|]. exists "0"%char, "". now split; [|right].
    + destruct (Json.is_digit c) eqn:E; [|discriminate].
      destruct (Json.digits s) as [d t] eqn:D.
      intros [= <- <-] HX. destruct (digits_spec _ _ _ D) as (_ & Hd & _).
      split; [|exists c, d; now split; [|right]].
      cbn [String.append]. apply Ascii.eqb_neq in Hc, H0.
      rewrite Hc, H0, E, (digits_app d X Hd HX). reflexivity.
Qed.

Lemma scan_frac_none X :
  digit_head X = false ->
  match X with String c _ => Ascii.eqb c "." = false | EmptyString => True end ->
  Json.scan_frac X = (EmptyString, X).
Proof.
  intros _ H. destruct X as [|c X]; [reflexivity|].
  cbn [Json.scan_frac]. now rewrite H.
Qed.

Lemma scan_frac_app s f r X :
  Json.scan_frac s = (f, r) -> digit_head X = false ->
  match X with String c _ => Ascii.eqb c "." = false | EmptyString => True end ->
  Json.scan_frac (f ++ X) = (f, X)
  /\ (f = EmptyString \/ exists d, f = String "." d).
Proof.
  intros H HX HX'. unfold Json.scan_frac in H.
  destruct s as [|c s].
  { injection H as <- <-. split; [now apply scan_frac_none|now left]. }
  destruct (Ascii.eqb_spec c ".") as [->|Hc].
  2:{ injection H as <- <-. split; [now apply scan_frac_none|now left]. }
  destruct (Json.digits s) as [d t] eqn:D.
  destruct (digits_spec _ _ _ D) as (_ & Hd & _).
  destruct d as [|d0 d].
  { injection H as <- <-. split; [now apply scan_frac_none|now left]. }
  injection H as <- <-. split; [|right; eauto].
  cbn [String.append Json.scan_frac]. change (Ascii.eqb "." ".") with true. cbv iota.
  change (String d0 (d ++ X)) with (String d0 d ++ X).
  now rewrite (digits_app _ X Hd HX).
Qed.

Lemma scan_exp_none X :
  match X with
  | String c _ => Ascii.eqb c "e" || Ascii.eqb c "E" = false
  | EmptyString => True
  end ->
  Json.scan_exp X = (EmptyString, X).
Proof.
  intros H. destruct X as [|c X]; [reflexivity|].
  cbn [Json.scan_exp]. now rewrite H.
Qed.

Lemma scan_exp_app s e r X :
  Json.scan_exp s = (e, r) -> digit_head X = false ->
  match X with
  | String c _ => Ascii.eqb c "e" || Ascii.eqb c "E" = false
  | EmptyString => True
  end ->
  Json.scan_exp (e ++ X) = (e, X)
  /\ (e = EmptyString
      \/ exists c d, e = String c d /\ Ascii.eqb c "e" || Ascii.eqb c "E" = true).
Proof.
  intros H HX HX'. unfold Json.scan_exp in H.
  destruct s as [|c s].
  { injection H as <- <-. split; [now apply scan_exp_none|now left]. }
  destruct (Ascii.eqb c "e" || Ascii.eqb c "E") eqn:Hc.
  2:{ injection H as <- <-. split; [now apply scan_exp_none|now left]. }
  destruct s as [|d0 s'].
  { cbn in H. injection H as <- <-. split; [now apply scan_exp_none|now left]. }
  destruct (Ascii.eqb d0 "-" || Ascii.eqb d0 "+") eqn:Hs.
  - destruct (Json.digits s') as [d t] eqn:D.
    destruct (digits_spec _ _ _ D) as (_ & Hd & _).
    destruct d as [|d1 d].
    { injection H as <- <-. split; [now apply scan_exp_none|now left]. }
    injection H as <- <-. split; [|right; eauto].
    cbn [String.append Json.ch Json.scan_exp]. rewrite Hc, Hs.
    change (String d1 (d ++ X)) with (String d1 d ++ X).
    now rewrite (digits_app _ X Hd HX).
  - destruct (Json.digits (String d0 s')) as [d t] eqn:D.
    destruct (digits_spec _ _ _ D) as (E & Hd & _).
    destruct d as [|d1 d].
    { injection H as <- <-. split; [now apply scan_exp_none|now left]. }
    injection H as <- <-. split; [|right; eauto].
    cbn [String.append] in E. injection E as <- _.
    cbn [String.append Json.scan_exp]. rewrite Hc, Hs.
    change (String d0 (d ++ X)) with (String d0 d ++ X).
    now rewrite (digits_app _ X Hd HX).
Qed.

Lemma stops_head X :
  stops X = true ->
  digit_head X = false
  /\ match X with String c _ => Ascii.eqb c "." = false | EmptyString => True end
  /\ match X with
     | String c _ => Ascii.eqb c "e" || Ascii.eqb c "E" = false
     | EmptyString => True
     end.
Proof.
  destruct X as [|c X]; cbn; [now repeat split|].
  intros H. apply negb_true_iff in H.
  destruct (Json.is_digit c); [discriminate|].
  destruct (Ascii.eqb c "."); [discriminate|].
  destruct (Ascii.eqb c "e"); [discriminate|].
  destruct (Ascii.eqb c "E"); [discriminate|]. now repeat split.
Qed.

(** A number that the scanner returned is read again, whole, from in front
    of any text that ends a number. *)
Lemma scan_number_app s n r X :
  Json.scan_number s = Some (n, r) -> stops X = true ->
  Json.scan_number (n ++ X) = Some (n, X)
  /\ exists c t, n = String c t /\ (c = "-"%char \/ Json.is_digit c = true).
Proof.
  unfold Json.scan_number. intros H HX.
  destruct (stops_head X HX) as (X1 & X2 & X3).
  destruct (Json.scan_int s) as [[i r0]|] eqn:I; [|discriminate].
  destruct (Json.scan_frac r0) as [f r1] eqn:F.
  destruct (Json.scan_exp r1) as [e r2] eqn:E.
  injection H as <- <-.
  destruct (scan_exp_app _ _ _ X E X1 X3) as (E' & He).
  assert (Y1 : digit_head (e ++ X) = false).
  { destruct He as [->|(c & d & -> & Hc)]; [assumption|]. cbn.
    destruct (Json.is_digit c) eqn:D; [|reflexivity].
    destruct (digit_is_no_sign c D) as (_ & _ & _ & H1 & H2 & _).
    rewrite H1, H2 in Hc. discriminate. }
  assert (Y2 : match e ++ X with
               | String c _ => Ascii.eqb c "." = false
               | EmptyString => True
               end).
  { destruct He as [->|(c & d & -> & Hc)]; [assumption|]. cbn.
    destruct (Ascii.eqb_spec c "."); [subst; discriminate|reflexivity]. }
  destruct (scan_frac_app _ _ _ (e ++ X) F Y1 Y2) as (F' & Hf).
  assert (Z1 : digit_head (f ++ e ++ X) = false).
  { destruct Hf as [->|(d & ->)]; [assumption|reflexivity]. }
  destruct (scan_int_app _ _ _ (f ++ e ++ X) I Z1) as (I' & c & t & -> & Hc).
  split.
  - rewrite !append_assoc, I', F', E'. reflexivity.
  - exists c, (t ++ f ++ e). split; [reflexivity|assumption].
Qed.

Lemma prefix_app w rest : prefix w (w ++ rest) = true.
Proof.
  induction w as [|c w IH]; cbn.
  - now destruct rest.
  - destruct (ascii_dec c c); [assumption|congruence].
Qed.

Lemma drop_length_app w rest : Str.drop (String.length w) (w ++ rest) = rest.
Proof.
  induction w as [|c w IH]; cbn; [now destruct rest|assumption].
Qed.

Lemma word_app w v rest : Json.word w v (w ++ rest) = Some (v, rest).
Proof.
  unfold Json.word. now rewrite prefix_app, drop_length_app.
Qed.

Lemma word_other c w v t :
  Json.word (String c w) v t = None \/ exists t', t = String c t'.
Proof.
  unfold Json.word. destruct t as [|c' t']; [now left|].
  cbn [prefix]. destruct (ascii_dec c c') as [->|_]; [right; eauto|now left].
Qed.

Lemma word_mismatch c c' w v t :
  c <> c' -> Json.word (String c w) v (String c' t) = None.
Proof.
  intros H. unfold Json.word. cbn [prefix].
  destruct (ascii_dec c c'); [contradiction|reflexivity].
Qed.

(** The text of a number starts with a sign, a digit, or the first letter
    of one of the three names. *)
Lemma number_head n :
  number n ->
  exists c t, n = String c t
    /\ (c = "-" \/ Json.is_digit c = true \/ c = "N" \/ c = "I")%char.
Proof.
  intros [ (s & r & H) | [ -> | [ -> | -> ] ] ].
  - destruct (scan_number_app _ _ _ "" H eq_refl) as (_ & c & t & -> & [->|Hc]);
      do 2 eexists; (split; [reflexivity|]); auto.
  - do 2 eexists. split; [reflexivity|]. auto.
  - do 2 eexists. split; [reflexivity|]. auto.
  - do 2 eexists. split; [reflexivity|]. auto.
Qed.

(** A number is read back from in front of a text that ends it. *)
Lemma scan_scalar_number n rest :
  number n -> stops rest = true ->
  Json.scan_scalar (n ++ rest) = Some (JNum n, rest).
Proof.
  intros Hn Hr. unfold Json.scan_scalar.
  destruct Hn as [ (s & r & H) | [ -> | [ -> | -> ] ] ].
  - destruct (scan_number_app _ _ _ rest H Hr) as (E & c & t & -> & Hc).
    assert (W : forall w v, In w ["null"; "true"; "false"] ->
                Json.word w v (String c t ++ rest) = None).
    { intros w v Hw. cbn [String.append].
      destruct Hw as [<-|[<-|[<-|[]]]];
        (match goal with |- Json.word (String ?a ?w') _ _ = _ =>
           destruct (word_other a w' v (String c (t ++ rest))) as [W|(t' & W)];
           [exact W|]
         end);
        injection W as -> _; destruct Hc as [Hc|Hc]; discriminate. }
    rewrite !W by (cbn; auto). now rewrite E.
  - cbn [String.append]. rewrite !word_mismatch by discriminate.
    change (Json.scan_number (String "N" ?x)) with (@None (string * string)).
    cbv iota. change (String "N" (String "a" (String "N" rest))) with ("NaN" ++ rest).
    now rewrite word_app.
  - cbn [String.append]. rewrite !word_mismatch by discriminate.
    change (Json.scan_number (String "I" ?x)) with (@None (string * string)).
    cbv iota.
    change (Json.word "Infinity" ?v ?x) with (Json.word "Infinity" v ("Infinity" ++ rest)).
    now rewrite word_app.
  - cbn [String.append]. rewrite !word_mismatch by discriminate.
    change (Json.scan_number (String "-" (String "I" ?x)))
      with (@None (string * string)).
    cbv iota.
    change (Json.word "-Infinity" ?v ?x)
      with (Json.word "-Infinity" v ("-Infinity" ++ rest)).
    now rewrite word_app.
Qed.

(** **** Values *)

Lemma jsonable_headed v : jsonable v -> headed v.
Proof.
  intros H lvl. destruct H as [| [] | n Hn | s | [|x l] _ | [|[k x] d] _ _]; cbn;
    try (do 2 eexists; (split; [reflexivity|split; reflexivity])).
  destruct (number_head n Hn) as (c & t & -> & Hc).
  exists c, t. split; [reflexivity|].
  destruct Hc as [ -> | [ Hc | [ -> | -> ] ] ]; try (split; reflexivity).
  destruct (digit_is_no_sign c Hc) as (_ & _ & _ & _ & _ & _ & _ & _ & H1 & H2).
  now split.
Qed.

Lemma skip_ws_headed v lvl t :
  headed v -> Json.skip_ws (Json.dumps_at lvl v ++ t) = Json.dumps_at lvl v ++ t.
Proof.
  intros H. destruct (H lvl) as (c & r & -> & Hc & _). cbn. now rewrite Hc.
Qed.

Lemma stops_more_items lvl dump xs rest :
  stops (Json.more_items lvl dump xs ++ rest) = true.
Proof. destruct xs; reflexivity. Qed.

Lemma stops_more_members lvl dump xs rest :
  stops (Json.more_members lvl dump xs ++ rest) = true.
Proof. destruct xs as [|[k y] xs]; reflexivity. Qed.

Lemma scan_items_close f s acc v r r' :
  Json.scan_once f s = Some (v, r) ->
  Json.skip_ws r = String "]" r' ->
  Json.scan_items (S f) s acc = Some (JArr (rev (v :: acc)), r').
Proof.
  intros H1 H2. cbn [Json.scan_items]. now rewrite H1, H2.
Qed.

Lemma scan_items_next f s acc v r r' :
  Json.scan_once f s = Some (v, r) ->
  Json.skip_ws r = String "," r' ->
  Json.scan_items (S f) s acc = Json.scan_items f (Json.skip_ws r') (v :: acc).
Proof.
  intros H1 H2. cbn [Json.scan_items]. now rewrite H1, H2.
Qed.

Lemma scan_items_ok xs :
  Forall roundtrips xs -> Forall headed xs ->
  forall x acc lvl rest fuel,
    roundtrips x ->
    String.length (Json.dumps_at (S lvl) x
                   ++ Json.more_items lvl (Json.dumps_at (S lvl)) xs) < fuel ->
    Json.scan_items fuel
      (Json.dumps_at (S lvl) x
       ++ Json.more_items lvl (Json.dumps_at (S lvl)) xs ++ rest) acc
    = Some (JArr (rev acc ++ x :: xs), rest).
Proof.
  induction xs as [|y ys IH]; intros Hr Hh x acc lvl rest fuel Hx Hlen;
    (destruct fuel as [|f]; [lia|]);
    rewrite length_append in Hlen; cbn [Json.more_items] in *.
  - rewrite length_append in Hlen. cbn [String.length] in Hlen.
    erewrite scan_items_close; [reflexivity|apply Hx; [reflexivity|lia]|].
    rewrite append_assoc, skip_ws_nl. reflexivity.
  - inversion Hr as [|? ? Hy Hys]; inversion Hh as [|? ? Gy Gys]; subst.
    change ("," ++ Json.nl (S lvl) ++ Json.dumps_at (S lvl) y
            ++ Json.more_items lvl (Json.dumps_at (S lvl)) ys)
      with (String "," (Json.nl (S lvl) ++ Json.dumps_at (S lvl) y
            ++ Json.more_items lvl (Json.dumps_at (S lvl)) ys)) in *.
    cbn [String.length] in Hlen. rewrite !length_append in Hlen.
    erewrite scan_items_next; [|apply Hx; [reflexivity|lia]|reflexivity].
    rewrite !append_assoc, skip_ws_nl, skip_ws_headed by assumption.
    rewrite (IH Hys Gys y (x :: acc) lvl rest f Hy).
    + cbn [rev]. now rewrite <- app_assoc.
    + rewrite length_append. lia.
Qed.

Lemma scan_members_close f s acc k r r1 v r2 r3 :
  Json.scanstring s = Some (k, r) ->
  Json.skip_ws r = String ":" r1 ->
  Json.scan_once f (Json.skip_ws r1) = Some (v, r2) ->
  Json.skip_ws r2 = String "}" r3 ->
  Json.scan_members (S f) s acc
  = Some (JObj (Json.dict_of (rev ((k, v) :: acc))), r3).
Proof.
  intros H1 H2 H3 H4. cbn [Json.scan_members]. now rewrite H1, H2, H3, H4.
Qed.

Lemma scan_members_next f s acc k r r1 v r2 r3 r4 :
  Json.scanstring s = Some (k, r) ->
  Json.skip_ws r = String ":" r1 ->
  Json.scan_once f (Json.skip_ws r1) = Some (v, r2) ->
  Json.skip_ws r2 = String "," r3 ->
  Json.skip_ws r3 = String Json.quote r4 ->
  Json.scan_members (S f) s acc = Json.scan_members f r4 ((k, v) :: acc).
Proof.
  intros H1 H2 H3 H4 H5. cbn [Json.scan_members]. now rewrite H1, H2, H3, H4, H5.
Qed.

Lemma member_text_eq lvl k x tail :
  Json.encode_str k ++ ": " ++ Json.dumps_at (S lvl) x ++ tail
  = String Json.quote (member_text lvl k x tail).
Proof.
  unfold Json.encode_str, member_text. cbn [String.append].
  now rewrite append_assoc.
Qed.

Lemma member_text_length lvl k x tail :
  String.length (member_text lvl k x tail)
  = String.length (Json.escape k) + 3 + String.length (Json.dumps_at (S lvl) x)
    + String.length tail.
Proof.
  unfold member_text. rewrite length_append. cbn [String.length].
  rewrite length_append. lia.
Qed.

Lemma member_text_app lvl k x tail rest :
  member_text lvl k x tail ++ rest = member_text lvl k x (tail ++ rest).
Proof.
  unfold member_text. rewrite append_assoc. cbn [String.append].
  now rewrite append_assoc.
Qed.

Lemma scan_members_ok xs :
  Forall (fun kv => roundtrips (snd kv)) xs ->
  Forall (fun kv => headed (snd kv)) xs ->
  forall k x acc lvl rest fuel,
    roundtrips x -> headed x ->
    String.length (member_text lvl k x
                     (Json.more_members lvl (Json.dumps_at (S lvl)) xs)) < fuel ->
    Json.scan_members fuel
      (member_text lvl k x
         (Json.more_members lvl (Json.dumps_at (S lvl)) xs ++ rest)) acc
    = Some (JObj (Json.dict_of (rev acc ++ (k, x) :: xs)), rest).
Proof.
  induction xs as [|[k' y] ys IH]; intros Hr Hh k x acc lvl rest fuel Hx Gx Hlen;
    (destruct fuel as [|f]; [lia|]);
    rewrite member_text_length in Hlen; cbn [Json.more_members] in *.
  - rewrite length_append in Hlen. cbn [String.length] in Hlen.
    erewrite scan_members_close;
      [reflexivity|apply scanstring_escape|reflexivity
      |change (Json.skip_ws (String " " ?t)) with (Json.skip_ws t);
       rewrite skip_ws_headed by assumption; apply Hx; [reflexivity|lia]
      |rewrite append_assoc, skip_ws_nl; reflexivity].
  - inversion Hr as [|? ? Hy Hys]; inversion Hh as [|? ? Gy Gys]; subst.
    cbn [snd] in *.
    rewrite member_text_eq in *.
    change ("," ++ Json.nl (S lvl) ++ ?t) with (String "," (Json.nl (S lvl) ++ t)) in *.
    cbn [String.length] in Hlen. rewrite length_append in Hlen.
    cbn [String.length] in Hlen. rewrite member_text_length in Hlen.
    erewrite scan_members_next;
      [|apply scanstring_escape|reflexivity
       |change (Json.skip_ws (String " " ?t)) with (Json.skip_ws t);
        rewrite skip_ws_headed by assumption; apply Hx; [reflexivity|lia]
       |reflexivity
       |rewrite append_assoc, skip_ws_nl; cbn [String.append];
        rewrite member_text_app; reflexivity].
    rewrite (IH Hys Gys k' y ((k, x) :: acc) lvl rest f Hy Gy).
    + cbn [rev]. now rewrite <- app_assoc.
    + rewrite member_text_length. lia.
Qed.

Lemma dict_set_fresh k v d :
  ~ In k (map fst d) -> Json.dict_set k v d = (d ++ [(k, v)])%list.
Proof.
  induction d as [|[k' v'] d IH]; cbn; intros H; [reflexivity|].
  destruct (String.eqb_spec k' k) as [E|E]; [tauto|].
  rewrite IH; tauto.
Qed.

Lemma fold_dict_set l : forall d,
  NoDup (map fst (d ++ l)%list) ->
  fold_left (fun d kv => Json.dict_set (fst kv) (snd kv) d) l d = (d ++ l)%list.
Proof.
  induction l as [|[k v] l IH]; intros d H; cbn.
  - now rewrite app_nil_r.
  - rewrite dict_set_fresh.
    + rewrite IH; rewrite <- app_assoc; [reflexivity|assumption].
    + rewrite map_app in H. cbn in H. apply NoDup_remove_2 in H.
      intros Hin. apply H. apply in_or_app. now left.
Qed.

Lemma dict_of_nodup l : NoDup (map fst l) -> Json.dict_of l = l.
Proof.
  intros H. unfold Json.dict_of. now rewrite fold_dict_set.
Qed.

Lemma scan_once_array f r d r' :
  Json.skip_ws r = String d r' -> Ascii.eqb d "]" = false ->
  Json.scan_once (S f) (String "[" r) = Json.scan_items f (String d r') [].
Proof.
  intros H1 H2. cbn [Json.scan_once].
  change (Ascii.eqb "[" Json.quote) with false.
  change (Ascii.eqb "[" "{") with false.
  change (Ascii.eqb "[" "[") with true.
  cbv iota. now rewrite H1, H2.
Qed.

Lemma scan_once_object f r r' :
  Json.skip_ws r = String Json.quote r' ->
  Json.scan_once (S f) (String "{" r) = Json.scan_members f r' [].
Proof.
  intros H1. cbn [Json.scan_once].
  change (Ascii.eqb "{" Json.quote) with false.
  change (Ascii.eqb "{" "{") with true.
  cbv iota. now rewrite H1.
Qed.

Lemma scan_once_scalar f c t :
  Ascii.eqb c Json.quote = false -> Ascii.eqb c "{" = false ->
  Ascii.eqb c "[" = false ->
  Json.scan_once (S f) (String c t) = Json.scan_scalar (String c t).
Proof.
  intros H1 H2 H3. cbn [Json.scan_once]. now rewrite H1, H2, H3.
Qed.

Lemma jsonable_roundtrips v : jsonable v -> roundtrips v.
Proof.
  induction v as [| b | n | s | l IH | d IH] using json_induction;
    intros Hp lvl rest fuel Hrest Hlen; (destruct fuel as [|f]; [lia|]).
  - change (Json.scan_scalar ("null" ++ rest) = Some (JNull, rest)).
    unfold Json.scan_scalar. now rewrite word_app.
  - destruct b.
    + change (Json.scan_scalar ("true" ++ rest) = Some (JBool true, rest)).
      unfold Json.scan_scalar.
      change (Json.word "null" JNull ("true" ++ rest)) with (@None (json * string)).
      now rewrite word_app.
    + change (Json.scan_scalar ("false" ++ rest) = Some (JBool false, rest)).
      unfold Json.scan_scalar.
      change (Json.word "null" JNull ("false" ++ rest)) with (@None (json * string)).
      change (Json.word "true" (JBool true) ("false" ++ rest))
        with (@None (json * string)).
      now rewrite word_app.
  - inversion Hp as [| | ? Hn | | |]; subst. cbn [Json.dumps_at].
    destruct (number_head n Hn) as (c & t & E & Hc).
    rewrite <- (scan_scalar_number n rest Hn Hrest). rewrite E.
    cbn [String.append]. apply scan_once_scalar;
      destruct Hc as [ -> | [ Hc | [ -> | -> ] ] ]; try reflexivity;
      now destruct (digit_is_no_sign c Hc) as (_ & _ & _ & _ & _ & ? & ? & ? & _).
  - cbn [Json.dumps_at]. unfold Json.encode_str.
    cbn [String.append Json.scan_once]. rewrite Ascii.eqb_refl.
    rewrite append_assoc.
    change (Json.ch Json.quote ++ rest) with (String Json.quote rest).
    now rewrite scanstring_escape.
  - inversion Hp as [| | | | ? Hl |]; subst.
    assert (Hr : Forall roundtrips l).
    { clear - IH Hl. induction Hl; inversion IH; subst; constructor; auto. }
    assert (Hh : Forall headed l).
    { eapply Forall_impl; [|exact Hl]. apply jsonable_headed. }
    destruct l as [|x xs]; [reflexivity|].
    inversion Hr as [|? ? Hx Hxs]; inversion Hh as [|? ? Gx Gxs]; subst.
    cbn [Json.dumps_at] in *. cbn [String.append] in *.
    cbn [String.length] in Hlen. rewrite length_append in Hlen.
    destruct (Gx (S lvl)) as (c & t & E & Hws & Hb).
    rewrite !append_assoc.
    rewrite (scan_once_array f _ c
               (t ++ Json.more_items lvl (Json.dumps_at (S lvl)) xs ++ rest));
      [|rewrite skip_ws_nl, skip_ws_headed by assumption;
        rewrite E; reflexivity|assumption].
    change (String c (t ++ ?u)) with (String c t ++ u). rewrite <- E.
    rewrite (scan_items_ok xs Hxs Gxs x [] lvl rest f Hx); [reflexivity|lia].
  - inversion Hp as [| | | | | ? Hnd Hl]; subst.
    assert (Hr : Forall (fun kv => roundtrips (snd kv)) d).
    { clear - IH Hl. induction Hl; inversion IH; subst; constructor; auto. }
    assert (Hh : Forall (fun kv => headed (snd kv)) d).
    { eapply Forall_impl; [|exact Hl]. intros kv. apply jsonable_headed. }
    destruct d as [|[k x] xs]; [reflexivity|].
    inversion Hr as [|? ? Hx Hxs]; inversion Hh as [|? ? Gx Gxs]; subst.
    cbn [snd] in *.
    cbn [Json.dumps_at] in *. rewrite member_text_eq in *.
    cbn [String.append] in *.
    cbn [String.length] in Hlen. rewrite length_append in Hlen.
    cbn [String.length] in Hlen.
    rewrite !append_assoc.
    erewrite scan_once_object;
      [|rewrite skip_ws_nl; cbn [String.append]; reflexivity].
    rewrite member_text_app.
    rewrite (scan_members_ok xs Hxs Gxs k x [] lvl rest f Hx Gx); [|lia].
    cbn [rev app]. now rewrite dict_of_nodup.
Qed.

Lemma loads_dumps v : jsonable v -> Json.loads (Json.dumps v) = Some v.
Proof.
  intros Hp. unfold Json.loads, Json.dumps.
  pose proof (skip_ws_headed v 0 "" (jsonable_headed v Hp)) as H.
  rewrite append_nil_r in H. rewrite H.
  pose proof (jsonable_roundtrips v Hp 0 ""
                (S (String.length (Json.dumps_at 0 v))) eq_refl) as R.
  rewrite append_nil_r in R. rewrite R by lia. reflexivity.
Qed.

(** **** What the decoder returns *)

Lemma dict_set_keys k v d x :
  In x (map fst (Json.dict_set k v d)) -> x = k \/ In x (map fst d).
Proof.
  induction d as [|[k' v'] d IH]; cbn.
  - intros [<-|[]]. now left.
  - destruct (String.eqb_spec k' k) as [->|E]; cbn.
    + intros [<-|H]; auto.
    + intros [<-|H]; [auto|]. destruct (IH H); auto.
Qed.

Lemma dict_set_nodup k v d :
  NoDup (map fst d) -> NoDup (map fst (Json.dict_set k v d)).
Proof.
  induction d as [|[k' v'] d IH]; cbn; intros H.
  - repeat constructor. intros [].
  - inversion H as [|? ? Hk Hd]; subst.
    destruct (String.eqb_spec k' k) as [->|E]; cbn.
    + now constructor.
    + constructor; [|now apply IH].
      intros Hin. apply dict_set_keys in Hin as [->|Hin]; [now apply E|now apply Hk].
Qed.

Lemma dict_set_values (P : json -> Prop) k v d :
  Forall (fun kv => P (snd kv)) d -> P v ->
  Forall (fun kv => P (snd kv)) (Json.dict_set k v d).
Proof.
  induction d as [|[k' v'] d IH]; cbn; intros H Hv.
  - now repeat constructor.
  - inversion H as [|? ? Hk Hd]; subst.
    destruct (k' =? k); constructor; auto.
Qed.

Lemma dict_of_jsonable l :
  Forall (fun kv => jsonable (snd kv)) l -> jsonable (JObj (Json.dict_of l)).
Proof.
  unfold Json.dict_of. intros H.
  assert (G : forall d,
             NoDup (map fst d) -> Forall (fun kv => jsonable (snd kv)) d ->
             jsonable (JObj (fold_left
                               (fun d kv => Json.dict_set (fst kv) (snd kv) d) l d))).
  { induction H as [|[k v] l Hv Hl IH]; intros d Hn Hd; cbn [fold_left].
    - now constructor.
    - apply IH; [now apply dict_set_nodup|now apply dict_set_values]. }
  apply G; constructor.
Qed.

Lemma word_value w v s r : Json.word w v s = Some r -> fst r = v.
Proof.
  unfold Json.word. destruct (prefix w s); [|discriminate]. now intros [= <-].
Qed.

Lemma scan_scalar_jsonable s v r :
  Json.scan_scalar s = Some (v, r) -> jsonable v.
Proof.
  unfold Json.scan_scalar.
  destruct (Json.word "null" _ s) as [x|] eqn:W1.
  { intros [= ->]. apply word_value in W1. cbn in W1. subst v. constructor. }
  destruct (Json.word "true" _ s) as [x|] eqn:W2.
  { intros [= ->]. apply word_value in W2. cbn in W2. subst v. constructor. }
  destruct (Json.word "false" _ s) as [x|] eqn:W3.
  { intros [= ->]. apply word_value in W3. cbn in W3. subst v. constructor. }
  destruct (Json.scan_number s) as [[n t]|] eqn:N.
  { intros [= <- <-]. constructor. left. eauto. }
  destruct (Json.word "NaN" _ s) as [x|] eqn:W4.
  { intros [= ->]. apply word_value in W4. cbn in W4. subst v. constructor. right. now left. }
  destruct (Json.word "Infinity" _ s) as [x|] eqn:W5.
  { intros [= ->]. apply word_value in W5. cbn in W5. subst v. constructor. right. right. now left. }
  intros W6. apply word_value in W6. cbn in W6. subst v. constructor. now repeat right.
Qed.

Lemma scan_jsonable fuel :
  (forall s v r, Json.scan_once fuel s = Some (v, r) -> jsonable v)
  /\ (forall s acc v r,
        Forall jsonable acc ->
        Json.scan_items fuel s acc = Some (v, r) -> jsonable v)
  /\ (forall s acc v r,
        Forall (fun kv => jsonable (snd kv)) acc ->
        Json.scan_members fuel s acc = Some (v, r) -> jsonable v).
Proof.
  induction fuel as [|f (IH1 & IH2 & IH3)];
    [repeat split; intros; discriminate|].
  split; [|split].
  - intros s v r. cbn [Json.scan_once].
    destruct s as [|c s]; [discriminate|].
    destruct (Ascii.eqb c Json.quote).
    { destruct (Json.scanstring s) as [[t r']|]; [|discriminate].
      intros [= <- <-]. constructor. }
    destruct (Ascii.eqb c "{").
    { destruct (Json.skip_ws s) as [|d r']; [discriminate|].
      destruct (Ascii.eqb d "}"); [intros [= <- <-]; now repeat constructor|].
      destruct (Ascii.eqb d Json.quote); [|discriminate].
      apply IH3. constructor. }
    destruct (Ascii.eqb c "[").
    { destruct (Json.skip_ws s) as [|d r']; [discriminate|].
      destruct (Ascii.eqb d "]"); [intros [= <- <-]; now repeat constructor|].
      apply IH2. constructor. }
    apply scan_scalar_jsonable.
  - intros s acc v r Hacc. cbn [Json.scan_items].
    destruct (Json.scan_once f s) as [[x t]|] eqn:E; [|discriminate].
    apply IH1 in E.
    destruct (Json.skip_ws t) as [|d t']; [discriminate|].
    destruct (Ascii.eqb d "]").
    { intros [= <- <-]. constructor. apply (Forall_rev (l := x :: acc)). now constructor. }
    destruct (Ascii.eqb d ","); [|discriminate].
    apply IH2. now constructor.
  - intros s acc v r Hacc. cbn [Json.scan_members].
    destruct (Json.scanstring s) as [[k t]|]; [|discriminate].
    destruct (Json.skip_ws t) as [|d t1]; [discriminate|].
    destruct (Ascii.eqb d ":"); [|discriminate].
    destruct (Json.scan_once f (Json.skip_ws t1)) as [[x t2]|] eqn:E; [|discriminate].
    apply IH1 in E.
    destruct (Json.skip_ws t2) as [|e t3]; [discriminate|].
    destruct (Ascii.eqb e "}").
    { intros [= <- <-]. apply dict_of_jsonable, (Forall_rev (l := (k, x) :: acc)).
      now constructor. }
    destruct (Ascii.eqb e ","); [|discriminate].
    destruct (Json.skip_ws t3) as [|q t4]; [discriminate|].
    destruct (Ascii.eqb q Json.quote); [|discriminate].
    apply IH3. now constructor.
Qed.

(** Whatever [json.loads] returns is such a value. *)
Lemma loads_jsonable s v : Json.loads s = Some v -> jsonable v.
Proof.
  unfold Json.loads.
  destruct (Json.scan_once _ _) as [[x r]|] eqn:E; [|discriminate].
  destruct (Json.skip_ws r); [|discriminate].
  intros [= <-]. exact (proj1 (scan_jsonable _) _ _ _ E).
Qed.

Lemma get_jsonable k d v :
  Forall (fun kv => jsonable (snd kv)) d -> Json.get k d = Some v -> jsonable v.
Proof.
  induction d as [|[k' v'] d IH]; cbn; [discriminate|].
  intros H. inversion H as [|? ? Hv Hd]; subst.
  destruct (k' =? k); [now intros [= <-]|now apply IH].
Qed.

Lemma texts_jsonable l : jsonable (texts l).
Proof.
  constructor. induction l as [|x l IH]; cbn; constructor; [constructor|exact IH].
Qed.

Lemma report_dict_jsonable r : holds_json r -> jsonable (report_dict r).
Proof.
  intros H. constructor.
  - cbn. repeat constructor; cbn; intuition discriminate.
  - repeat constructor; cbn.
    induction H as [|i l (H1 & H2 & H3 & H4 & H5) Hl IH]; cbn; constructor;
      [|exact IH].
    constructor.
    + cbn. repeat constructor; cbn; intuition discriminate.
    + repeat constructor; assumption.
Qed.

Lemma parsed_severity_count_report level r :
  parsed_severity_count level (report_dict r)
  = Some (count_severity level (issues r)).
Proof.
  cbn. f_equal. induction (issues r) as [|i l IH]; cbn; [reflexivity|].
  destruct (severity i) as [| b | n | s | x | d]; cbn; try exact IH.
  destruct (s =? level); cbn; now rewrite IH.
Qed.

(** *** Lists of issues *)

Lemma filter_severity_length level l :
  List.length (filter (is_severity level) l) = count_severity level l.
Proof.
  induction l as [|i l IH]; simpl; [reflexivity|].
  unfold is_severity at 1, eq_str.
  destruct (severity i) as [| b | n | s | x | d]; try exact IH.
  destruct (s =? level); simpl; congruence.
Qed.

Lemma count_severity_zero level l :
  count_severity level l = 0 <-> forall i, In i l -> severity i <> JStr level.
Proof.
  induction l as [|i l IH]; simpl.
  - split; [intros _ j []|reflexivity].
  - assert (R : count_severity level l = 0 ->
                severity i <> JStr level ->
                forall j, i = j \/ In j l -> severity j <> JStr level).
    { intros H Hi j [<-|Hj]; [assumption|]. now apply IH. }
    destruct (severity i) as [| b | n | s | x | d] eqn:E;
      try (split; [intros H; apply R; [assumption|discriminate]
                  |intros H; apply IH; intros j Hj; apply H; now right]).
    destruct (String.eqb_spec s level) as [->|Hs].
    + split; [discriminate|]. intros H. exfalso.
      now apply (H i); [left|].
    + split; [intros H; apply R; [assumption|congruence]
             |intros H; apply IH; intros j Hj; apply H; now right].
Qed.

Lemma count_severity_pos level l :
  count_severity level l <> 0 -> exists i, In i l /\ severity i = JStr level.
Proof.
  induction l as [|i l IH]; simpl; [congruence|].
  assert (R : count_severity level l <> 0 ->
              exists j, (i = j \/ In j l) /\ severity j = JStr level).
  { intros H. destruct (IH H) as (j & Hj & Hs). exists j. auto. }
  destruct (severity i) as [| b | n | s | x | d] eqn:E; try exact R.
  destruct (String.eqb_spec s level) as [->|Hs]; [|exact R].
  intros _. exists i. auto.
Qed.

Lemma count_severity_app level l1 l2 :
  count_severity level (l1 ++ l2) = count_severity level l1 + count_severity level l2.
Proof.
  induction l1 as [|i l1 IH]; simpl; [reflexivity|].
  destruct (severity i) as [| b | n | s | x | d]; try exact IH.
  destruct (s =? level); simpl; lia.
Qed.

Lemma filter_nil_iff {A} (f : A -> bool) l :
  filter f l = [] <-> forall x, In x l -> f x = false.
Proof.
  induction l as [|a l IH]; simpl.
  - split; [intros _ x []|reflexivity].
  - destruct (f a) eqn:E.
    + split; [discriminate|]. intros H. specialize (H a (or_introl eq_refl)). congruence.
    + rewrite IH. split.
      * intros H x [<-|Hx]; auto.
      * intros H x Hx. apply H. now right.
Qed.

(** The issues of a run on content that is not empty: the rule-based ones,
    then those of the analysis. *)
Lemma validate_content_issues self c content file_type :
  issues (validate_content self (String c content) file_type)
  = (_validate_scene_structure (String c content) file_type
     ++ _analyze_with_gemini self (String c content))%list.
Proof.
  unfold validate_content. cbn [issues].
  unfold _validate_continuity, _validate_character_consistency. cbn [app].
  f_equal. unfold _analyze_with_gemini.
  destruct (gemini_model self); reflexivity.
Qed.

Lemma validate_content_valid self c content file_type :
  valid (validate_content self (String c content) file_type)
  = (count_severity "high"
       (issues (validate_content self (String c content) file_type)) =? 0)%nat.
Proof.
  unfold validate_content. cbn [valid issues].
  now rewrite filter_severity_length.
Qed.

(** *** The validator *)

(** C1. Whatever the content, the tag and the service, the result of
    [validate_content] is invalid exactly when its issue list holds an issue
    of severity [high]; so it is valid exactly when it holds none. *)
Theorem valid_iff_no_high_issue (self : SceneValidator) (content file_type : string) :
  let r := validate_content self content file_type in
  (valid r = false <-> exists i, In i (issues r) /\ severity i = JStr "high")
  /\ (valid r = true <-> forall i, In i (issues r) -> severity i <> JStr "high").
Proof.
  destruct content as [|c content].
  - cbn. split; split; try discriminate.
    + intros _. exists empty_content_issue. split; [now left|reflexivity].
    + intros _. reflexivity.
    + intros H. exfalso. now apply (H empty_content_issue); [left|].
  - cbv zeta. rewrite validate_content_valid.
    set (l := issues _). clearbody l.
    pose proof (count_severity_zero "high" l) as Z.
    split.
    + rewrite Nat.eqb_neq. split.
      * apply count_severity_pos.
      * intros (i & Hi & Hs) H. exact (proj1 Z H i Hi Hs).
    + now rewrite Nat.eqb_eq.
Qed.

(** C2. On empty content, whatever the tag and whether or not a service is
    configured, [validate_content] returns at once the invalid result whose
    only issue is the high-severity [empty_content] one: no rule adds to
    it and the service is not consulted. *)
Theorem empty_content_short_circuit (self : SceneValidator) (file_type : string) :
  let r := validate_content self "" file_type in
  valid r = false
  /\ (exists i, issues r = [i]
                /\ issue_type i = JStr "empty_content" /\ severity i = JStr "high")
  /\ r = validate_content no_model "" ".txt"
  /\ r = mkResult false
           [mkIssue (JStr "empty_content") (JStr "The script content is empty")
                    (JStr "entire file") (JStr "high")
                    (JArr [JStr "Add content to the script file"])]
           "Validation failed: Empty script content".
Proof.
  cbn. repeat split. now exists empty_content_issue.
Qed.

(** C3. For content that is not empty and a tag among [.fdx] and
    [.fountain]: when no line, once trimmed, starts with [INT.] or [EXT.],
    the scene-structure rule emits exactly the one medium-severity
    [missing_scene_headers] issue with its two suggestions, and when some
    line does, it emits nothing.  For any other tag it emits nothing.  With
    no service configured these are all the issues of the run. *)
Theorem scene_header_rule (content file_type : string) :
  content <> "" ->
  let lines := Str.split_char Json.newline content in
  (In file_type [".fdx"; ".fountain"] ->
     ((forall l, In l lines -> ~ scene_header l) ->
        _validate_scene_structure content file_type = [missing_scene_headers])
     /\ ((exists l, In l lines /\ scene_header l) ->
        _validate_scene_structure content file_type = []))
  /\ (~ In file_type [".fdx"; ".fountain"] ->
        _validate_scene_structure content file_type = [])
  /\ issues (validate_content no_model content file_type)
     = _validate_scene_structure content file_type.
Proof.
  intros Hne lines.
  assert (Hset : existsb (String.eqb file_type) [".fdx"; ".fountain"] = true
                 <-> In file_type [".fdx"; ".fountain"]).
  { rewrite existsb_exists. split.
    - intros (x & Hx & E). apply String.eqb_eq in E. now subst.
    - intros H. exists file_type. split; [assumption|apply String.eqb_refl]. }
  split; [|split].
  - intros Hin. apply Hset in Hin.
    unfold _validate_scene_structure. rewrite Hin. fold lines.
    set (f := fun l => _).
    assert (Hf : forall l, f l = true <-> scene_header l).
    { intros l. unfold f, scene_header, Str.startswith.
      now rewrite orb_true_iff. }
    split.
    + intros Hnone.
      assert (filter f lines = []) as ->; [|reflexivity].
      apply filter_nil_iff. intros l Hl.
      destruct (f l) eqn:E; [|reflexivity].
      exfalso. apply (Hnone l Hl). now apply Hf.
    + intros (l & Hl & Hh).
      destruct (filter f lines) as [|x xs] eqn:E; [|reflexivity].
      exfalso. rewrite filter_nil_iff in E.
      apply Hf in Hh. rewrite (E l Hl) in Hh. discriminate.
  - intros Hout. unfold _validate_scene_structure.
    destruct (existsb _ _) eqn:E; [|reflexivity].
    exfalso. now apply Hout, Hset.
  - destruct content as [|c content]; [congruence|].
    rewrite validate_content_issues. apply app_nil_r.
Qed.

Lemma scene_header_rule_witness :
  _validate_scene_structure "Just some prose, no scene markers." ".fountain"
  = [missing_scene_headers]
  /\ _validate_scene_structure ("FADE IN:" ++ br ++ "  INT. HOUSE - DAY") ".fdx" = [].
Proof.
  split.
  - assert (Hne : "Just some prose, no scene markers." <> "") by discriminate.
    destruct (scene_header_rule _ ".fountain" Hne) as (Hin & _ & _).
    apply Hin; [right; left; reflexivity|].
    intros l [<-|[]] [H|H]; vm_compute in H; discriminate.
  - assert (Hne : "FADE IN:" ++ br ++ "  INT. HOUSE - DAY" <> "") by discriminate.
    destruct (scene_header_rule _ ".fdx" Hne) as (Hin & _ & _).
    apply Hin; [left; reflexivity|].
    exists "  INT. HOUSE - DAY". split; [right; left; reflexivity|left; reflexivity].
Defined.

(** C4. Every error of the analysis is turned into exactly one synthetic
    low-severity issue, appended to whatever had been converted before the
    error: the result of [_analyze_with_gemini] is always a list, made of
    the issues converted from the response followed by one synthetic issue
    when the analysis fails and by nothing when it does not.  When the call,
    the reading of the response or the decoding fails, nothing had been
    converted and the synthetic issue stands alone. *)
Theorem analysis_failure_policy (self : SceneValidator) (content : string) :
  exists found synth,
    _analyze_with_gemini self content = (found ++ synth)%list
    /\ (analysis_fails self content <-> exists i, synth = [i] /\ synthetic i)
    /\ (~ analysis_fails self content <-> synth = [])
    /\ (forall model,
          gemini_model self = Some model ->
          let analysis_content :=
            if (max_length <? String.length content)%nat
            then Str.take max_length content ++ "...[truncated]"
            else content in
          match generate_content model (prompt analysis_content) with
          | CallRaises e => found = [] /\ synth = [gemini_analysis_error e]
          | Response None => found = [] /\ synth = [gemini_parsing_error]
          | Response (Some response_text) =>
              match Json.loads (Str.strip (extract_json_str response_text)) with
              | None => found = [] /\ synth = [gemini_parsing_error]
              | Some result => found = fst (convert_result result)
              end
          end).
Proof.
  assert (Sp : synthetic gemini_parsing_error) by (split; [|right]; reflexivity).
  assert (Sa : forall e, synthetic (gemini_analysis_error e))
    by (intros e; split; [|left]; reflexivity).
  unfold _analyze_with_gemini, analysis_fails.
  destruct (gemini_model self) as [model|].
  2:{ exists [], []. repeat split; try tauto; try discriminate.
      intros (i & H & _). discriminate. }
  cbv zeta.
  set (ac := if (max_length <? String.length content)%nat then _ else _).
  destruct (generate_content model (prompt ac)) as [e|[response_text|]] eqn:G.
  - exists [], [gemini_analysis_error e].
    split; [reflexivity|]. split; [|split].
    + split; [intros _; now exists (gemini_analysis_error e)|tauto].
    + split; [tauto|discriminate].
    + intros m [= <-]. rewrite G. now split.
  - destruct (Json.loads _) as [result|] eqn:L.
    + destruct (convert_result result) as [l ok] eqn:E. cbn [snd].
      destruct ok.
      * exists l, []. rewrite app_nil_r.
        split; [reflexivity|]. split; [|split].
        -- split; [discriminate|]. intros (i & H & _). discriminate.
        -- split; [reflexivity|]. intros _. discriminate.
        -- intros m [= <-]. rewrite G, L, E. reflexivity.
      * exists l, [gemini_parsing_error].
        split; [reflexivity|]. split; [|split].
        -- split; [intros _; now exists gemini_parsing_error|reflexivity].
        -- split; [intros H; now elim H|discriminate].
        -- intros m [= <-]. rewrite G, L, E. reflexivity.
    + exists [], [gemini_parsing_error].
      split; [reflexivity|]. split; [|split].
      * split; [intros _; now exists gemini_parsing_error|tauto].
      * split; [tauto|discriminate].
      * intros m [= <-]. rewrite G, L. now split.
  - exists [], [gemini_parsing_error].
    split; [reflexivity|]. split; [|split].
    + split; [intros _; now exists gemini_parsing_error|tauto].
    + split; [tauto|discriminate].
    + intros m [= <-]. rewrite G. now split.
Qed.

(** C5, as stated, fails on empty content: the summary of that result
    states no count at all. *)
Lemma summary_of_empty_content_states_no_count :
  ~ (forall self content file_type,
       summary (validate_content self content file_type)
       = counts_summary (issues (validate_content self content file_type))).
Proof.
  intros H. specialize (H no_model "" ".txt"). vm_compute in H. discriminate.
Qed.

(** C5 (amended). The summary of a result of [validate_content] is fixed by
    the content and the issue list: on empty content it is the fixed text
    [Validation failed: Empty script content]; on other content with no
    issue it is [No issues found in the script.]; and with at least one
    issue it restates the total and the counts of high, medium and low
    issues, each equal to the count recomputed from the issue list. *)
Theorem summary_by_case (self : SceneValidator) (content file_type : string) :
  let r := validate_content self content file_type in
  summary r
  = match content, issues r with
    | EmptyString, _ => "Validation failed: Empty script content"
    | String _ _, [] => "No issues found in the script."
    | String _ _, (_ :: _) as l => counts_summary l
    end.
Proof.
  destruct content as [|c content]; [reflexivity|].
  unfold validate_content. cbn [summary issues]. cbv zeta.
  set (l := (_ ++ _)%list). clearbody l.
  destruct l as [|i l]; [reflexivity|].
  unfold counts_summary. now rewrite !filter_severity_length.
Qed.

Lemma scene_structure_tag content t1 t2 :
  existsb (String.eqb t1) [".fdx"; ".fountain"]
  = existsb (String.eqb t2) [".fdx"; ".fountain"] ->
  _validate_scene_structure content t1 = _validate_scene_structure content t2.
Proof.
  unfold _validate_scene_structure. now intros ->.
Qed.

Lemma validate_content_tag self content t1 t2 :
  existsb (String.eqb t1) [".fdx"; ".fountain"]
  = existsb (String.eqb t2) [".fdx"; ".fountain"] ->
  validate_content self content t1 = validate_content self content t2.
Proof.
  intros H. unfold validate_content.
  now rewrite (scene_structure_tag content t1 t2 H).
Qed.

(** C7, as stated, fails on a path without extension: the tag is the empty
    string, not the generic tag. *)
Lemma extensionless_tag_is_empty :
  ~ (forall file_path, file_ext file_path = described_tag file_path).
Proof.
  intros H. specialize (H "notes"). vm_compute in H. discriminate.
Qed.

(** C7 (amended). When [os.path.exists] does not find the path,
    [validate_file] raises [FileNotFoundError].  Otherwise it opens the
    file and reads it as text; when that raises, as it does on a directory
    or on a file that may not be read or is not text, the exception goes to
    the caller as it is.  When the read succeeds it validates the whole
    text with the tag [splitext(path)[1].lower()]: the extension in lower
    case, starting with its dot; when the path has no extension the tag is
    the empty string, not a generic tag, and the result is the one the
    generic tag [.txt] would give. *)
Theorem validate_file_contract (fs : filesystem) (self : SceneValidator)
  (file_path : string) :
  match path_exists fs file_path, read_text fs file_path with
  | false, _ =>
      validate_file fs self file_path
      = Raises (FileNotFoundError ("Script file not found: " ++ file_path))
  | true, Raises e => validate_file fs self file_path = Raises e
  | true, Returns content =>
      validate_file fs self file_path
      = Returns (validate_content self content (file_ext file_path))
      /\ match snd (splitext file_path) with
         | String _ _ => True
         | EmptyString =>
             validate_file fs self file_path
             = Returns (validate_content self content ".txt")
         end
  end
  /\ file_ext file_path = Str.lower (snd (splitext file_path))
  /\ fst (splitext file_path) ++ snd (splitext file_path) = file_path
  /\ Str.lower (file_ext file_path) = file_ext file_path
  /\ match snd (splitext file_path) with
     | String c _ => c = "."%char /\ exists r, file_ext file_path = String "." r
     | EmptyString => file_ext file_path = ""
     end.
Proof.
  split; [|split; [reflexivity|split; [apply splitext_join|split; [apply lower_idem|]]]].
  - unfold validate_file. destruct (path_exists fs file_path); [|reflexivity].
    destruct (read_text fs file_path) as [content|e]; [|reflexivity].
    split; [reflexivity|].
    unfold file_ext. destruct (snd (splitext file_path)) eqn:E; [|exact I].
    apply f_equal. now apply validate_content_tag.
  - unfold file_ext.
    destruct (splitext_dot file_path) as [E|(r & E)]; rewrite E; [reflexivity|].
    split; [reflexivity|]. now exists (Str.lower r).
Qed.

(** *** What the issues hold *)

Lemma item_get_jsonable item key default :
  Forall (fun kv => jsonable (snd kv)) item -> jsonable default ->
  jsonable (item_get item key default).
Proof.
  intros H Hd. unfold item_get.
  destruct (Json.get key item) as [v|] eqn:E; [|assumption].
  eapply get_jsonable; eassumption.
Qed.

Lemma issue_of_item_holds item :
  jsonable (JObj item) -> issue_holds_json (issue_of_item item).
Proof.
  intros H. inversion H as [| | | | | ? _ Hv]; subst.
  repeat split; cbn; apply item_get_jsonable; trivial; repeat constructor.
Qed.

Lemma convert_items_holds items :
  Forall jsonable items -> Forall issue_holds_json (fst (convert_items items)).
Proof.
  induction 1 as [|v items Hv Hl IH]; cbn [convert_items]; [constructor|].
  destruct v; try constructor.
  destruct (convert_items items) as [l ok]. cbn [fst] in *.
  constructor; [now apply issue_of_item_holds|assumption].
Qed.

Lemma iterate_jsonable v items :
  jsonable v -> iterate v = Some items -> Forall jsonable items.
Proof.
  intros H. destruct H as [| b | n Hn | s | l Hl | d Hn Hd]; cbn; try discriminate;
    intros [= <-].
  - induction s as [|c s IH]; cbn; constructor; [constructor|exact IH].
  - exact Hl.
  - clear. induction d as [|kv d IH]; cbn; constructor; [constructor|exact IH].
Qed.

Lemma convert_result_holds result :
  jsonable result -> Forall issue_holds_json (fst (convert_result result)).
Proof.
  intros H. destruct H as [| b | n Hn | s | l Hl | d Hn Hd]; cbn [convert_result];
    try constructor.
  - now apply convert_items_holds.
  - destruct (Json.get "issues" d) as [v|] eqn:E; [|constructor].
    destruct (iterate v) as [items|] eqn:I; [|constructor].
    apply convert_items_holds. eapply iterate_jsonable; [|exact I].
    eapply get_jsonable; eassumption.
Qed.

Lemma built_issue_holds a b c d l :
  issue_holds_json (mkIssue (JStr a) (JStr b) (JStr c) (JStr d) (texts l)).
Proof.
  repeat split; cbn [issue_type description location severity suggestions];
    try apply texts_jsonable; constructor.
Qed.

Lemma analysis_holds self content :
  Forall issue_holds_json (_analyze_with_gemini self content).
Proof.
  unfold _analyze_with_gemini.
  destruct (gemini_model self) as [model|]; [|constructor].
  cbv zeta.
  destruct (generate_content model _) as [e|[response_text|]];
    try (repeat constructor; apply built_issue_holds).
  destruct (Json.loads _) as [result|] eqn:L;
    [|repeat constructor; apply built_issue_holds].
  pose proof (convert_result_holds result (loads_jsonable _ _ L)) as H.
  destruct (convert_result result) as [l [|]]; cbn [fst] in H; [assumption|].
  apply Forall_app. split; [assumption|].
  repeat constructor; apply built_issue_holds.
Qed.

(** Every result of [validate_content] holds values that [json.dumps]
    prints. *)
Lemma validate_content_holds_json self content file_type :
  holds_json (validate_content self content file_type).
Proof.
  unfold holds_json. destruct content as [|c content].
  - repeat constructor; apply built_issue_holds.
  - rewrite validate_content_issues. apply Forall_app. split.
    + unfold _validate_scene_structure.
      destruct (existsb _ _); [|constructor].
      destruct (filter _ _); [|constructor].
      repeat constructor; apply built_issue_holds.
    + apply analysis_holds.
Qed.

Lemma as_declared_holds_json i : as_declared i -> issue_holds_json i.
Proof.
  intros ((a & Ha) & (b & Hb) & (c & Hc) & (d & Hd) & (l & Hl)).
  unfold issue_holds_json. rewrite Ha, Hb, Hc, Hd, Hl.
  repeat split; try apply texts_jsonable; constructor.
Qed.


(** *** The reports *)

Section Reports.

Variable py_str : json -> string.

Lemma html_rows_renderable l :
  Forall renderable l -> exists rows, html_rows py_str l = Returns rows.
Proof.
  induction 1 as [|i l ((s & Hs) & (items & Hi)) Hl (rows & IH)]; cbn [html_rows].
  - now eexists.
  - unfold html_row. rewrite Hs, Hi, IH. now eexists.
Qed.




(** C10. [get_report] compares the lower-case form of its format argument,
    so a format and its lower-case form are treated alike: either both
    calls return the same text, or both raise [ValueError] because the
    format is not recognised, or, the format being [html] in some case,
    both raise the same error of the rendering.  So [JSON] and [Html] give
    what [json] and [html] give. *)
Theorem get_report_case_insensitive (r : ValidationResult) (format : string) :
  ((exists text,
      get_report py_str r format = Returns text
      /\ get_report py_str r (Str.lower format) = Returns text)
   \/ (exists msg msg',
         get_report py_str r format = Raises (ValueError msg)
         /\ get_report py_str r (Str.lower format) = Raises (ValueError msg'))
   \/ (exists e,
         Str.lower format = "html"
         /\ get_report py_str r format = Raises e
         /\ get_report py_str r (Str.lower format) = Raises e))
  /\ (Str.lower format = "json" \/ Str.lower format = "html" ->
      get_report py_str r format = get_report py_str r (Str.lower format))
  /\ get_report py_str r "JSON" = get_report py_str r "json"
  /\ get_report py_str r "Html" = get_report py_str r "html".
Proof.
  unfold get_report. rewrite lower_idem.
  split; [|split; [|split; reflexivity]].
  - destruct (Str.lower format =? "json"); [left; now eexists|].
    destruct (String.eqb_spec (Str.lower format) "html") as [E|E].
    + destruct (html_report py_str r) as [text|e];
        [left; now eexists|right; right; now exists e].
    + right; left. now do 2 eexists.
  - intros [E|E]; rewrite E; reflexivity.
Qed.

(** C6. The JSON report of a result decodes: [json.loads] of the text that
    [get_report] returns for the format [json] is the dict the report was
    made from, so a reader finds in it the validity flag of the result and,
    for every severity, as many issues of that severity as the result
    holds.  This holds of every result whose issues hold JSON values; every
    result of [validate_content] is one, and so is every result whose
    issues have the declared types. *)
Theorem report_json_roundtrip :
  (forall self content file_type,
      holds_json (validate_content self content file_type))
  /\ (forall r : ValidationResult,
        Forall as_declared (issues r) -> holds_json r)
  /\ forall r : ValidationResult,
       holds_json r ->
       exists text doc,
         get_report py_str r "json" = Returns text
         /\ Json.loads text = Some doc
         /\ doc = report_dict r
         /\ parsed_valid doc = Some (valid r)
         /\ forall level,
              parsed_severity_count level doc
              = Some (count_severity level (issues r)).
Proof.
  split; [apply validate_content_holds_json|].
  split; [intros r Hr; eapply Forall_impl; [apply as_declared_holds_json|exact Hr]|].
  intros r Hr.
  exists (Json.dumps (report_dict r)), (report_dict r).
  split; [reflexivity|]. split; [apply loads_dumps, report_dict_jsonable, Hr|].
  split; [reflexivity|]. split; [reflexivity|].
  intros level. apply parsed_severity_count_report.
Qed.

End Reports.


Lemma get_report_case_insensitive_witness :
  get_report (fun _ => "") (mkResult true [] "No issues found in the script.") "Json"
  = get_report (fun _ => "") (mkResult true [] "No issues found in the script.")
      (Str.lower "Json").
Proof.
  destruct (get_report_case_insensitive (fun _ => "")
              (mkResult true [] "No issues found in the script.") "Json")
    as (_ & H & _).
  apply H. left. reflexivity.
Defined.

Lemma report_json_roundtrip_witness :
  exists text doc,
    get_report (fun _ => "")
      (validate_content no_model "Just some prose." ".fdx") "json"
    = Returns text
    /\ Json.loads text = Some doc
    /\ doc = report_dict (validate_content no_model "Just some prose." ".fdx")
    /\ parsed_valid doc = Some true
    /\ forall level,
         parsed_severity_count level doc
         = Some (count_severity level
                   (issues (validate_content no_model "Just some prose." ".fdx"))).
Proof.
  destruct (report_json_roundtrip (fun _ => "")) as (Hv & _ & Hr).
  apply (Hr (validate_content no_model "Just some prose." ".fdx")).
  apply Hv.
Defined.

(** *** The scenarios of the specification *)

Example prose_fountain_scenario :
  validate_file (single_file "draft.Fountain" "Just some prose, no scene markers.")
                no_model "draft.Fountain"
  = Returns (mkResult true [missing_scene_headers]
                      "Found 1 issues: 0 high, 1 medium, 0 low severity.").
Proof. reflexivity. Qed.

Example directory_scenario :
  validate_file
    {| path_exists := fun _ => true;
       read_text := fun p => Raises (OSError ("[Errno 21] Is a directory: '" ++ p ++ "'")) |}
    no_model "scripts"
  = Raises (OSError "[Errno 21] Is a directory: 'scripts'").
Proof. reflexivity. Qed.

Example payload_not_json :
  _analyze_with_gemini (answering "not valid JSON") "INT. HOUSE - DAY"
  = [gemini_parsing_error].
Proof. reflexivity. Qed.

Example payload_fenced_json :
  _analyze_with_gemini
    (answering ("Here you are: ```json [{" ++ dq ++ "issue_type" ++ dq ++ ":"
                ++ dq ++ "x" ++ dq ++ "," ++ dq ++ "severity" ++ dq ++ ":"
                ++ dq ++ "low" ++ dq ++ "}] ``` and that is all."))
    "INT. HOUSE - DAY"
  = [mkIssue (JStr "x") (JStr "No description provided") (JStr "unknown")
             (JStr "low") (JArr [])].
Proof. reflexivity. Qed.

Example payload_breaks_midway :
  _analyze_with_gemini
    (answering ("[{" ++ dq ++ "severity" ++ dq ++ ":" ++ dq ++ "high" ++ dq ++ "}, 5]"))
    "INT. HOUSE - DAY"
  = [mkIssue (JStr "unknown") (JStr "No description provided") (JStr "unknown")
             (JStr "high") (JArr []);
     gemini_parsing_error].
Proof. reflexivity. Qed.

(** The service may send values of other types than the declared ones:
    they are stored as they come, the JSON report shows them, and the HTML
    report raises on a severity that is not a string. *)
Example payload_with_number_severity :
  let r := validate_content
             (answering ("[{" ++ dq ++ "severity" ++ dq ++ ": 5}]"))
             "INT. HOUSE - DAY" ".txt" in
  issues r
  = [mkIssue (JStr "unknown") (JStr "No description provided") (JStr "unknown")
             (JNum "5") (JArr [])]
  /\ valid r = true
  /\ summary r = "Found 1 issues: 0 high, 0 medium, 0 low severity."
  /\ get_report (fun _ => "") r "html"
     = Raises (AttributeError "'int' object has no attribute 'capitalize'").
Proof. repeat split. Qed.

(** *** The tools updater *)

Module UpdaterProofs.
Import Updater.

Section DryRun.
Variables today timestamp elapsed : string.
Variable self : ToolsUpdater.
Hypothesis Hdry : dry_run self = true.

Lemma only_logs_app a b : only_logs a -> only_logs b -> only_logs (a ++ b).
Proof.
  intros Ha Hb ev H. apply in_app_or in H as [H|H]; auto.
Qed.

Lemma only_logs_cons l m tr : only_logs tr -> only_logs (Log l m :: tr).
Proof.
  intros H ev [<-|Hev]; eauto.
Qed.

Lemma only_logs_nil : only_logs [].
Proof. intros ev []. Qed.

Lemma process_tool_dry t st :
  exists r tr, process_tool today self t st = (r, st, tr) /\ only_logs tr.
Proof.
  unfold process_tool, update_documentation, ensure_tool_directory,
    update_tool_code, when, item, bind, info, emit, ret, raise, modify.
  rewrite Hdry. cbn [negb].
  destruct (get "Tool Name" t) as [name|].
  2:{ do 2 eexists. split; [reflexivity|apply only_logs_nil]. }
  destruct (truthy (get "Documentation URL" t));
    destruct (truthy (get "Repository Path" t)) eqn:R;
    try (destruct (get "Repository Path" t) as [[|c p]|]; [discriminate| |discriminate]);
    cbn; do 2 eexists; (split; [reflexivity|]);
    repeat apply only_logs_cons; apply only_logs_nil.
Qed.

Lemma handled_tool_dry t st :
  exists r st' tr,
    try_except (process_tool today self t)
      (fun e =>
         name <- item t "Tool Name" ;;
         emit (Log ERROR ("Error updating tool " ++ name ++ ": " ++ error_str e)) ;;;
         modify bump_errors) st = (r, st', tr)
    /\ same_updates st st' /\ only_logs tr.
Proof.
  unfold try_except.
  destruct (process_tool_dry t st) as (r & tr & -> & Htr).
  destruct r as [[]|e].
  - exists (inl tt), st, tr. repeat split; assumption.
  - unfold item, bind, emit, modify, ret, raise.
    destruct (get "Tool Name" t) as [name|]; cbn.
    + do 3 eexists. split; [reflexivity|]. split; [repeat split|].
      apply only_logs_app; [assumption|]. apply only_logs_cons, only_logs_nil.
    + do 3 eexists. split; [reflexivity|]. split; [repeat split|].
      now rewrite app_nil_r.
Qed.

Lemma for_each_dry tools st :
  exists r st' tr,
    for_each tools (fun t =>
      try_except (process_tool today self t)
        (fun e =>
           name <- item t "Tool Name" ;;
           emit (Log ERROR ("Error updating tool " ++ name ++ ": " ++ error_str e)) ;;;
           modify bump_errors)) st = (r, st', tr)
    /\ same_updates st st' /\ only_logs tr.
Proof.
  revert st. induction tools as [|t rest IH]; intros st.
  - exists (inl tt), st, []. repeat split. apply only_logs_nil.
  - cbn [for_each]. unfold bind at 1.
    destruct (handled_tool_dry t st) as (r & st1 & tr & -> & (H1 & H2 & H3) & Htr).
    destruct r as [[]|e].
    + destruct (IH st1) as (r' & st2 & tr' & -> & (K1 & K2 & K3) & Htr').
      do 3 eexists. split; [reflexivity|]. split.
      * repeat split; congruence.
      * now apply only_logs_app.
    + do 3 eexists. split; [reflexivity|]. split; [repeat split|]; assumption.
Qed.

Lemma update_tools_dry tools st :
  exists r st' tr,
    update_tools today self tools st = (r, st', tr)
    /\ tools_updated st' = 0 /\ docs_updated st' = 0 /\ code_updated st' = 0
    /\ only_logs tr
    /\ (forall s, r = inl s -> s = st').
Proof.
  unfold update_tools. unfold bind at 1. unfold modify at 1.
  unfold bind at 1.
  destruct (for_each_dry tools (mkStats 0 0 0 0 0 (List.length tools)))
    as (r & st1 & tr & -> & (H1 & H2 & H3) & Htr).
  cbn in H1, H2, H3.
  destruct r as [[]|e]; cbn.
  - do 3 eexists. split; [reflexivity|].
    split; [congruence|]. split; [congruence|]. split; [congruence|].
    split; [now rewrite app_nil_r|]. now intros s [= <-].
  - do 3 eexists. split; [reflexivity|].
    split; [congruence|]. split; [congruence|]. split; [congruence|].
    split; [assumption|]. intros s [=].
Qed.

(** X20. With [dry_run] set, the five update and messaging operations are
    suppressed: each returns [False], leaves the counters alone and emits
    nothing but log records, ending with the record of the intended action;
    and [update_tools] leaves the three update counts at zero and emits
    nothing but log records, whatever the tools. *)
Theorem dry_run_suppresses_updates :
  (forall t st name,
      get "Tool Name" t = Some name ->
      update_documentation self t st
      = (inl false, st,
         [Log INFO ("Updating documentation for " ++ name);
          Log INFO ("[DRY RUN] Would update documentation for " ++ name)])
      /\ update_tool_code self t st
         = (inl false, st,
            [Log INFO ("Updating code for " ++ name);
             Log INFO ("[DRY RUN] Would update code for " ++ name)])
      /\ update_last_updated today self t st
         = (inl false, st,
            [Log INFO ("Updating last updated timestamp for " ++ name ++ " to " ++ today);
             Log INFO ("[DRY RUN] Would update timestamp for " ++ name)]))
  /\ (forall t st,
        ensure_tool_directory self t st
        = (inl false, st,
           match get "Repository Path" t with
           | Some (String c r) =>
               [Log INFO ("[DRY RUN] Would ensure directory exists: " ++ String c r)]
           | _ => []
           end))
  /\ (forall summary st,
        send_den_message self summary st
        = (inl false, st,
           [Log INFO "Sending summary message to Den";
            Log INFO ("[DRY RUN] Would send message to Den:" ++ br ++ summary)]))
  /\ (forall tools st,
        exists r st' tr,
          update_tools today self tools st = (r, st', tr)
          /\ tools_updated st' = 0 /\ docs_updated st' = 0 /\ code_updated st' = 0
          /\ only_logs tr
          /\ (forall s, r = inl s -> s = st')).
Proof.
  split; [|split; [|split]].
  - intros t st name Hn.
    unfold update_documentation, update_tool_code, update_last_updated,
      item, bind, info, emit, ret.
    rewrite Hdry, Hn. cbn. repeat split.
  - intros t st. unfold ensure_tool_directory, bind, info, emit, ret.
    rewrite Hdry. destruct (get "Repository Path" t) as [[|c r]|]; reflexivity.
  - intros summary st. unfold send_den_message, bind, info, emit, ret.
    rewrite Hdry. reflexivity.
  - apply update_tools_dry.
Qed.

End DryRun.

(** C8.  The specification asks that a dry run write nothing, and so do
    the docstring of the constructor and the help of [--dry-run]; the code
    does otherwise: a full run of an updater built with [dry_run] set,
    whatever its credentials and whatever the clock reads, returns normally
    after writing one file, the summary report [last_update_summary.md],
    with the report as its content. *)
Theorem dry_run_still_writes_summary (today timestamp elapsed : string)
  (token key : option string) (st : stats) :
  let self := {| dry_run := true; github_token := token; google_api_key := key |} in
  let outcome := run today timestamp elapsed self st in
  fst (fst outcome) = inl tt
  /\ writes outcome = ["last_update_summary.md"]
  /\ In (WriteFile "last_update_summary.md"
           (generate_summary_report timestamp self (mkStats 0 0 0 0 0 1)))
        (snd outcome).
Proof.
  cbv zeta. split; [reflexivity|]. split; [reflexivity|].
  vm_compute. repeat (first [left; reflexivity | right]).
Qed.

Lemma dry_run_suppresses_updates_witness :
  dry_run dry_updater = true
  /\ send_den_message dry_updater "report" zero
     = (inl false, zero,
        [Log INFO "Sending summary message to Den";
         Log INFO ("[DRY RUN] Would send message to Den:" ++ br ++ "report")]).
Proof.
  split; [reflexivity|].
  destruct (dry_run_suppresses_updates "2025-06-21" dry_updater eq_refl)
    as (_ & _ & Hsend & _).
  apply Hsend.
Defined.

End UpdaterProofs.

(** ** Further properties of the validator *)

Lemma scene_structure_medium content file_type level :
  level <> "medium" ->
  count_severity level (_validate_scene_structure content file_type) = 0.
Proof.
  intros H. unfold _validate_scene_structure.
  destruct (existsb _ _); [|reflexivity].
  destruct (filter _ _); [|reflexivity].
  cbn [count_severity severity].
  destruct (String.eqb_spec "medium" level); [congruence|reflexivity].
Qed.

Lemma analysis_split self content :
  exists synth,
    _analyze_with_gemini self content = (converted self content ++ synth)%list
    /\ (synth = [] \/ exists i, synth = [i] /\ severity i = JStr "low").
Proof.
  unfold _analyze_with_gemini, converted.
  destruct (gemini_model self) as [model|]; [|exists []; split; [reflexivity|now left]].
  cbv zeta.
  destruct (generate_content model _) as [e|[response_text|]].
  - exists [gemini_analysis_error e]. split; [reflexivity|]. right. now eexists.
  - destruct (Json.loads _) as [result|].
    + destruct (convert_result result) as [l [|]]; cbn [fst].
      * exists []. split; [now rewrite app_nil_r|now left].
      * exists [gemini_parsing_error]. split; [reflexivity|]. right. now eexists.
    + exists [gemini_parsing_error]. split; [reflexivity|]. right. now eexists.
  - exists [gemini_parsing_error]. split; [reflexivity|]. right. now eexists.
Qed.

(** X1. On content that is not empty, only an issue converted from the
    response of the service can make the result invalid: the result is
    valid exactly when none of the converted issues has severity [high],
    so neither the scene-header rule nor a failure of the analysis ever
    invalidates a script. *)
Theorem only_service_findings_invalidate (self : SceneValidator)
  (c : ascii) (content file_type : string) :
  let r := validate_content self (String c content) file_type in
  valid r = (count_severity "high" (converted self (String c content)) =? 0)%nat
  /\ (converted self (String c content) = [] -> valid r = true).
Proof.
  cbv zeta. rewrite validate_content_valid, validate_content_issues.
  destruct (analysis_split self (String c content)) as (synth & -> & Hs).
  rewrite !count_severity_app, scene_structure_medium by discriminate.
  assert (count_severity "high" synth = 0) as ->.
  { destruct Hs as [->|(i & -> & Hi)]; [reflexivity|]. cbn. now rewrite Hi. }
  rewrite Nat.add_0_r. cbn [Nat.add].
  split; [reflexivity|]. now intros ->.
Qed.

Lemma only_service_findings_invalidate_witness :
  converted (answering "not valid JSON") "INT. HOUSE" = []
  /\ valid (validate_content (answering "not valid JSON") "INT. HOUSE" ".fdx") = true.
Proof.
  split; [reflexivity|].
  apply (only_service_findings_invalidate (answering "not valid JSON") "I" "NT. HOUSE" ".fdx").
  reflexivity.
Defined.

(** X2. With no service configured, validating content that is not empty
    has only two possible results, both valid: no issue at all, or the one
    missing-headers issue with the summary that counts it. *)
Theorem rule_only_results (c : ascii) (content file_type : string) :
  let r := validate_content no_model (String c content) file_type in
  r = mkResult true [] "No issues found in the script."
  \/ r = mkResult true [missing_scene_headers]
           "Found 1 issues: 0 high, 1 medium, 0 low severity.".
Proof.
  cbv zeta. unfold validate_content.
  assert (H : _validate_scene_structure (String c content) file_type = []
              \/ _validate_scene_structure (String c content) file_type
                 = [missing_scene_headers]).
  { unfold _validate_scene_structure.
    destruct (existsb _ _); [|now left].
    destruct (filter _ _); [now right|now left]. }
  destruct H as [-> | ->]; [left|right]; reflexivity.
Qed.

(** X3. The tag matters only through its membership in the two screenplay
    extensions: two tags that are both among [.fdx] and [.fountain], or both
    outside, give the same result on every content and with every
    service. *)
Theorem tag_matters_by_membership (self : SceneValidator)
  (content tag1 tag2 : string) :
  (In tag1 [".fdx"; ".fountain"] <-> In tag2 [".fdx"; ".fountain"]) ->
  validate_content self content tag1 = validate_content self content tag2.
Proof.
  intros H. apply validate_content_tag.
  assert (E : forall t, existsb (String.eqb t) [".fdx"; ".fountain"] = true
                        <-> In t [".fdx"; ".fountain"]).
  { intros t. rewrite existsb_exists. split.
    - intros (x & Hx & Ex). apply String.eqb_eq in Ex. now subst.
    - intros Hin. exists t. split; [assumption|apply String.eqb_refl]. }
  destruct (existsb (String.eqb tag1) _) eqn:E1;
    destruct (existsb (String.eqb tag2) _) eqn:E2; try reflexivity.
  - apply E, H, E in E1. congruence.
  - apply E, H, E in E2. congruence.
Qed.

Lemma tag_matters_by_membership_witness :
  validate_content no_model "Some prose." ".fdx"
  = validate_content no_model "Some prose." ".fountain".
Proof.
  apply tag_matters_by_membership.
  split; intros _; [right; left|left]; reflexivity.
Defined.

(** X4. The service sees at most the first 30,000 characters of a script:
    two scripts longer than that which agree on those characters get the
    same issues from the analysis. *)
Theorem analysis_reads_a_prefix (self : SceneValidator) (content1 content2 : string) :
  (max_length <? String.length content1)%nat = true ->
  (max_length <? String.length content2)%nat = true ->
  Str.take max_length content1 = Str.take max_length content2 ->
  _analyze_with_gemini self content1 = _analyze_with_gemini self content2.
Proof.
  intros H1 H2 E. unfold _analyze_with_gemini.
  now rewrite H1, H2, E.
Qed.

Lemma spaces_length n : String.length (Json.spaces n) = n.
Proof.
  induction n as [|n IH]; cbn; congruence.
Qed.

Lemma take_spaces_app n s : Str.take n (Json.spaces n ++ s) = Json.spaces n.
Proof.
  induction n as [|n IH]; cbn; [now destruct s|congruence].
Qed.

Lemma analysis_reads_a_prefix_witness :
  _analyze_with_gemini (answering "[]") (Json.spaces max_length ++ "INT. A")
  = _analyze_with_gemini (answering "[]") (Json.spaces max_length ++ "EXT. B").
Proof.
  apply analysis_reads_a_prefix.
  - apply Nat.ltb_lt. rewrite length_append, spaces_length. cbn [String.length]. lia.
  - apply Nat.ltb_lt. rewrite length_append, spaces_length. cbn [String.length]. lia.
  - now rewrite !take_spaces_app.
Defined.

Lemma no_backtick_app a b :
  no_backtick (a ++ b) = no_backtick a && no_backtick b.
Proof.
  induction a as [|c a IH]; cbn; [reflexivity|]. now rewrite IH, andb_assoc.
Qed.

(** Splitting at a separator that starts with a backtick, behind a text
    that holds none. *)
Lemma split_once_after sep a rest :
  no_backtick a = true ->
  Str.split_once (String "`" sep) (a ++ String "`" sep ++ rest) = Some (a, rest).
Proof.
  intros H. induction a as [|c a IH].
  - cbn [String.append Str.split_once].
    change (String "`" (sep ++ rest)) with (String "`" sep ++ rest).
    now rewrite prefix_app, drop_length_app.
  - cbn in H. apply andb_true_iff in H as [Hc Ha].
    change (String c a ++ ?x) with (String c (a ++ x)).
    cbn [Str.split_once prefix].
    destruct (ascii_dec "`" c) as [<-|_]; [discriminate|].
    now rewrite (IH Ha).
Qed.

Lemma split_once_absent sep s :
  no_backtick s = true -> Str.split_once (String "`" sep) s = None.
Proof.
  intros H. induction s as [|c s IH]; [reflexivity|].
  cbn in H. apply andb_true_iff in H as [Hc Hs].
  cbn [Str.split_once prefix].
  destruct (ascii_dec "`" c) as [<-|_]; [discriminate|].
  now rewrite (IH Hs).
Qed.

(** X5. A payload that holds no backtick is found inside a fence tagged
    [json], whatever prose without backticks precedes the fence and
    whatever follows it; and a response with no backtick at all is taken
    whole.  So the analysis of a fenced payload is the analysis of the bare
    payload. *)
Theorem fenced_payload_is_found (before payload after content : string) :
  no_backtick before = true ->
  no_backtick payload = true ->
  extract_json_str (before ++ "```json" ++ payload ++ "```" ++ after) = payload
  /\ extract_json_str payload = payload
  /\ _analyze_with_gemini
       (answering (before ++ "```json" ++ payload ++ "```" ++ after)) content
     = _analyze_with_gemini (answering payload) content.
Proof.
  intros Hb Hp.
  assert (E1 : extract_json_str (before ++ "```json" ++ payload ++ "```" ++ after)
               = payload).
  { unfold extract_json_str.
    change ("```json" ++ payload ++ "```" ++ after)
      with (String "`" "``json" ++ payload ++ "```" ++ after).
    rewrite (split_once_after "``json" before _ Hb).
    change (payload ++ "```" ++ after) with (payload ++ String "`" "``" ++ after).
    now rewrite (split_once_after "``" payload _ Hp). }
  assert (E2 : extract_json_str payload = payload).
  { unfold extract_json_str.
    now rewrite (split_once_absent "``json" payload Hp),
                (split_once_absent "``" payload Hp). }
  split; [exact E1|]. split; [exact E2|].
  unfold _analyze_with_gemini, answering.
  cbn [gemini_model generate_content]. now rewrite E1, E2.
Qed.

Lemma fenced_payload_is_found_witness :
  extract_json_str ("Here it is: " ++ "```json" ++ "[]" ++ "```" ++ " Done.") = "[]".
Proof.
  apply (fenced_payload_is_found "Here it is: " "[]" " Done." "INT. HOUSE");
    reflexivity.
Defined.

Lemma convert_items_prefix items :
  convert_items items
  = (map issue_of_item (leading_objects items), forallb is_object items).
Proof.
  induction items as [|v items IH]; [reflexivity|].
  destruct v; try reflexivity.
  cbn [convert_items leading_objects forallb is_object map]. now rewrite IH.
Qed.

(** X6. When the response decodes to a list, the analysis converts the
    objects that open the list, in order, and stops at the first item that
    is not an object: nothing behind that item is converted, and one
    parsing-error issue closes the result.  A list of objects only gives one
    issue per object and no parsing error. *)
Theorem conversion_stops_at_first_non_object (response_text content : string)
  (items : list json) :
  Json.loads (Str.strip (extract_json_str response_text)) = Some (JArr items) ->
  _analyze_with_gemini (answering response_text) content
  = (map issue_of_item (leading_objects items)
     ++ if forallb is_object items then [] else [gemini_parsing_error])%list.
Proof.
  intros H. unfold _analyze_with_gemini, answering.
  cbn [gemini_model generate_content]. rewrite H.
  cbn [convert_result]. rewrite convert_items_prefix.
  destruct (forallb is_object items); [now rewrite app_nil_r|reflexivity].
Qed.

Lemma conversion_stops_at_first_non_object_witness :
  _analyze_with_gemini (answering "[{}, 7, {}]") "INT. HOUSE"
  = [mkIssue (JStr "unknown") (JStr "No description provided") (JStr "unknown")
             (JStr "medium") (JArr []);
     gemini_parsing_error].
Proof.
  apply (conversion_stops_at_first_non_object "[{}, 7, {}]" "INT. HOUSE"
           [JObj []; JNum "7"; JObj []]).
  reflexivity.
Defined.

Lemma plain_ascii_app a b :
  plain_ascii (a ++ b) = plain_ascii a && plain_ascii b.
Proof.
  induction a as [|c a IH]; cbn [String.append plain_ascii]; [reflexivity|].
  now rewrite IH, andb_assoc.
Qed.

Lemma escape_char_ascii c : plain_ascii (Json.escape_char c) = true.
Proof.
  destruct c as [[] [] [] [] [] [] [] []]; reflexivity.
Qed.

Lemma encode_str_ascii s : plain_ascii (Json.encode_str s) = true.
Proof.
  unfold Json.encode_str.
  change (String Json.quote (Json.escape s ++ Json.ch Json.quote))
    with (Json.ch Json.quote ++ Json.escape s ++ Json.ch Json.quote).
  rewrite !plain_ascii_app.
  assert (plain_ascii (Json.escape s) = true) as ->; [|reflexivity].
  induction s as [|c s IH]; [reflexivity|].
  cbn [Json.escape]. now rewrite plain_ascii_app, escape_char_ascii, IH.
Qed.

Lemma nl_ascii lvl : plain_ascii (Json.nl lvl) = true.
Proof.
  unfold Json.nl. cbn [plain_ascii].
  induction (2 * lvl) as [|n IH]; [reflexivity|exact IH].
Qed.

Lemma all_digits_ascii d : all_digits d = true -> plain_ascii d = true.
Proof.
  induction d as [|c d IH]; cbn [all_digits plain_ascii]; [reflexivity|].
  intros H. apply andb_true_iff in H as [Hc Hd]. rewrite (IH Hd), andb_true_r.
  revert Hc. destruct c as [[] [] [] [] [] [] [] []]; vm_compute; intros; congruence.
Qed.

Lemma scan_int_ascii s i r : Json.scan_int s = Some (i, r) -> plain_ascii i = true.
Proof.
  unfold Json.scan_int.
  assert (D : forall c d, Json.is_digit c = true -> all_digits d = true ->
              plain_ascii (String c d) = true).
  { intros c d Hc Hd. apply (all_digits_ascii (String c d)). cbn. now rewrite Hc. }
  destruct s as [|c s]; [discriminate|].
  destruct (Ascii.eqb c "-").
  - destruct s as [|c1 r1]; [discriminate|].
    destruct (Ascii.eqb c1 "0"); [now intros [= <- <-]|].
    destruct (Json.is_digit c1) eqn:E; [|discriminate].
    destruct (Json.digits r1) as [d t] eqn:Dg. intros [= <- <-].
    destruct (digits_spec _ _ _ Dg) as (_ & Hd & _).
    change (plain_ascii ("-" ++ String c1 d) = true).
    rewrite plain_ascii_app, (D _ _ E Hd). reflexivity.
  - destruct (Ascii.eqb c "0"); [now intros [= <- <-]|].
    destruct (Json.is_digit c) eqn:E; [|discriminate].
    destruct (Json.digits s) as [d t] eqn:Dg. intros [= <- <-].
    destruct (digits_spec _ _ _ Dg) as (_ & Hd & _). now apply D.
Qed.

Lemma scan_frac_ascii s f r : Json.scan_frac s = (f, r) -> plain_ascii f = true.
Proof.
  unfold Json.scan_frac. destruct s as [|c s]; [now intros [= <- <-]|].
  destruct (Ascii.eqb_spec c ".") as [->|_]; [|now intros [= <- <-]].
  destruct (Json.digits s) as [d t] eqn:Dg.
  destruct (digits_spec _ _ _ Dg) as (_ & Hd & _).
  destruct d as [|d0 d]; intros [= <- <-]; [reflexivity|].
  change (plain_ascii ("." ++ String d0 d) = true).
  rewrite plain_ascii_app, (all_digits_ascii _ Hd). reflexivity.
Qed.

Lemma scan_exp_ascii s e r : Json.scan_exp s = (e, r) -> plain_ascii e = true.
Proof.
  unfold Json.scan_exp. destruct s as [|c s]; [now intros [= <- <-]|].
  destruct (Ascii.eqb c "e" || Ascii.eqb c "E") eqn:Hc; [|now intros [= <- <-]].
  assert (Pc : plain_ascii (Json.ch c) = true).
  { revert Hc. destruct c as [[] [] [] [] [] [] [] []]; vm_compute; intros; congruence. }
  destruct s as [|d0 s']; [now intros [= <- <-]|].
  destruct (Ascii.eqb d0 "-" || Ascii.eqb d0 "+") eqn:Hs.
  - assert (Ps : plain_ascii (Json.ch d0) = true).
    { revert Hs. destruct d0 as [[] [] [] [] [] [] [] []]; vm_compute; intros; congruence. }
    destruct (Json.digits s') as [d t] eqn:Dg.
    destruct (digits_spec _ _ _ Dg) as (_ & Hd & _).
    destruct d as [|d1 d]; intros [= <- <-]; [reflexivity|].
    change (plain_ascii (Json.ch c ++ Json.ch d0 ++ String d1 d) = true).
    rewrite !plain_ascii_app, Pc, Ps, (all_digits_ascii _ Hd). reflexivity.
  - destruct (Json.digits (String d0 s')) as [d t] eqn:Dg.
    destruct (digits_spec _ _ _ Dg) as (_ & Hd & _).
    destruct d as [|d1 d]; intros [= <- <-]; [reflexivity|].
    change (plain_ascii (Json.ch c ++ String d1 d) = true).
    rewrite !plain_ascii_app, Pc, (all_digits_ascii _ Hd). reflexivity.
Qed.

Lemma number_ascii n : number n -> plain_ascii n = true.
Proof.
  intros [ (s & r & H) | [ -> | [ -> | -> ] ] ]; try reflexivity.
  unfold Json.scan_number in H.
  destruct (Json.scan_int s) as [[i r0]|] eqn:I; [|discriminate].
  destruct (Json.scan_frac r0) as [f r1] eqn:F.
  destruct (Json.scan_exp r1) as [e r2] eqn:E.
  injection H as <- <-.
  now rewrite !plain_ascii_app, (scan_int_ascii _ _ _ I), (scan_frac_ascii _ _ _ F),
              (scan_exp_ascii _ _ _ E).
Qed.

Lemma dumps_at_ascii v :
  jsonable v -> forall lvl, plain_ascii (Json.dumps_at lvl v) = true.
Proof.
  induction v as [| b | n | s | l IH | d IH] using json_induction;
    intros Hp lvl.
  - reflexivity.
  - destruct b; reflexivity.
  - inversion Hp as [| | ? Hn | | |]; subst. now apply number_ascii.
  - apply encode_str_ascii.
  - inversion Hp as [| | | | ? Hl |]; subst.
    destruct l as [|x xs]; [reflexivity|].
    inversion IH as [|? ? Hx Hxs]; inversion Hl as [|? ? Px Pxs]; subst.
    assert (M : plain_ascii (Json.more_items lvl (Json.dumps_at (S lvl)) xs) = true).
    { clear Hx Px Hp Hl IH.
      induction xs as [|y ys IHy]; cbn [Json.more_items].
      - now rewrite plain_ascii_app, nl_ascii.
      - inversion Hxs as [|? ? Hy Hys]; inversion Pxs as [|? ? Py Pys]; subst.
        now rewrite !plain_ascii_app, nl_ascii, (Hy Py), (IHy Hys Pys). }
    cbn [Json.dumps_at]. now rewrite !plain_ascii_app, nl_ascii, (Hx Px), M.
  - inversion Hp as [| | | | | ? Hnd Hl]; subst.
    destruct d as [|[k x] xs]; [reflexivity|].
    inversion IH as [|? ? Hx Hxs]; inversion Hl as [|? ? Px Pxs]; subst.
    cbn [snd] in *.
    assert (M : plain_ascii (Json.more_members lvl (Json.dumps_at (S lvl)) xs) = true).
    { clear Hx Px Hp Hl IH Hnd.
      induction xs as [|[k' y] ys IHy]; cbn [Json.more_members].
      - now rewrite plain_ascii_app, nl_ascii.
      - inversion Hxs as [|? ? Hy Hys]; inversion Pxs as [|? ? Py Pys]; subst.
        cbn [snd] in *.
        now rewrite !plain_ascii_app, nl_ascii, encode_str_ascii, (Hy Py),
                    (IHy Hys Pys). }
    cbn [Json.dumps_at].
    now rewrite !plain_ascii_app, nl_ascii, encode_str_ascii, (Hx Px), M.
Qed.

(** X8. Whatever characters the issues and the summary hold, the JSON
    report is made of printable ASCII characters and line breaks only.
    This holds of every result whose issues hold JSON values, and so of
    every result of [validate_content]. *)
Theorem json_report_is_ascii (py_str : json -> string) :
  (forall self content file_type,
      exists text,
        get_report py_str (validate_content self content file_type) "json"
        = Returns text
        /\ plain_ascii text = true)
  /\ forall r : ValidationResult,
       holds_json r ->
       exists text,
         get_report py_str r "json" = Returns text /\ plain_ascii text = true.
Proof.
  assert (H : forall r : ValidationResult,
            holds_json r ->
            exists text,
              get_report py_str r "json" = Returns text /\ plain_ascii text = true).
  { intros r Hr. exists (Json.dumps (report_dict r)). split; [reflexivity|].
    apply dumps_at_ascii, report_dict_jsonable, Hr. }
  split; [|exact H].
  intros self content file_type. apply H, validate_content_holds_json.
Qed.

Lemma json_report_is_ascii_witness :
  exists text,
    get_report (fun _ => "")
      (mkResult false [empty_content_issue] "Validation failed: Empty script content")
      "json"
    = Returns text
    /\ plain_ascii text = true.
Proof.
  destruct (json_report_is_ascii (fun _ => "")) as (_ & H).
  apply (H (mkResult false [empty_content_issue]
                     "Validation failed: Empty script content")).
  repeat constructor; apply texts_jsonable.
Defined.

(** ** The command line of the validator *)

Section CliProofs.

Variable GEMINI_AVAILABLE : bool.
Variable make_model : json -> json -> outcome GenerativeModel.
Variable decode_error : string -> string.
Variable py_str : json -> string.
Variable print_error : string -> option exn.

(** The rows of the table can be made exactly when every issue can be
    shown. *)
Lemma html_rows_returns_iff l :
  (exists rows, html_rows py_str l = Returns rows) <-> Forall renderable l.
Proof.
  split; [|apply html_rows_renderable].
  induction l as [|i l IH]; [constructor|].
  cbn [html_rows]. intros (rows & H).
  destruct (html_row py_str i) as [row|e] eqn:R; [|discriminate].
  destruct (html_rows py_str l) as [rows'|e] eqn:L; [|discriminate].
  constructor; [|apply IH; now eexists].
  unfold html_row in R. unfold renderable.
  destruct (severity i) as [| b | n | s | x | d]; try discriminate.
  destruct (iterate (suggestions i)) as [items|]; [|discriminate].
  split; now eexists.
Qed.

Lemma get_report_raises r format e :
  get_report py_str r (Cli.format_name format) = Raises e ->
  format = Cli.html_format /\ ~ Forall renderable (issues r).
Proof.
  destruct format; cbn [Cli.format_name].
  - discriminate.
  - change (get_report py_str r "html") with (html_report py_str r).
    unfold html_report. intros H. split; [reflexivity|]. intros Hr.
    destruct (issues r) as [|i0 l0]; [discriminate|].
    apply html_rows_returns_iff in Hr as (rows & Hr). rewrite Hr in H. discriminate.
Qed.

(** X9. The constructor returns a validator with a service exactly when
    the library is available, the configuration is a dict that holds the key
    [gemini_api_key], and the library makes a model from that key and from
    [gemini_model], or [gemini-pro] when the dict names none.  It returns a
    validator without service exactly when the configuration loads and
    either the library is missing or the configuration, a dict, a list or a
    string, does not mention the key. *)
Theorem service_needs_a_key (fs : filesystem) (config_path : option string) :
  (forall model,
     Cli.__init__ GEMINI_AVAILABLE make_model decode_error fs config_path
     = Returns {| gemini_model := Some model |}
     <-> GEMINI_AVAILABLE = true
         /\ exists d key,
              Cli.load_config decode_error fs config_path = Returns (JObj d)
              /\ Json.get "gemini_api_key" d = Some key
              /\ make_model key (item_get d "gemini_model" (JStr "gemini-pro"))
                 = Returns model)
  /\ (Cli.__init__ GEMINI_AVAILABLE make_model decode_error fs config_path
      = Returns {| gemini_model := None |}
      <-> exists cfg,
            Cli.load_config decode_error fs config_path = Returns cfg
            /\ (GEMINI_AVAILABLE = false
                \/ match cfg with
                   | JObj d => Json.get "gemini_api_key" d = None
                   | JArr l => existsb Cli.is_key_name l = false
                   | JStr s => Str.contains "gemini_api_key" s = false
                   | _ => False
                   end)).
Proof.
  unfold Cli.__init__.
  destruct (Cli.load_config decode_error fs config_path) as [cfg|e0].
  2:{ split; [intros model|]; (split; [discriminate|]).
      - intros (_ & d & key & H & _). discriminate.
      - intros (cfg & H & _). discriminate. }
  destruct GEMINI_AVAILABLE.
  2:{ split; [intros model; split; [discriminate|intros (H & _); discriminate]|].
      split; [intros _; exists cfg; auto|reflexivity]. }
  split.
  - intros model. split.
    + intros H. split; [reflexivity|].
      destruct cfg as [| b | n | s | l | d]; try discriminate.
      * destruct (Str.contains _ s); discriminate.
      * destruct (existsb _ l); discriminate.
      * destruct (Json.get "gemini_api_key" d) as [key|] eqn:E; [|discriminate].
        destruct (make_model key _) as [m|e] eqn:M; [|discriminate].
        injection H as <-. now exists d, key.
    + intros (_ & d & key & [= ->] & -> & ->). reflexivity.
  - split.
    + intros H. exists cfg. split; [reflexivity|]. right.
      destruct cfg as [| b | n | s | l | d]; try discriminate.
      * destruct (Str.contains _ s); [discriminate|reflexivity].
      * destruct (existsb _ l); [discriminate|reflexivity].
      * destruct (Json.get "gemini_api_key" d) as [key|]; [|reflexivity].
        destruct (make_model key _); discriminate.
    + intros (cfg' & [= <-] & [H|H]); [discriminate|].
      destruct cfg as [| b | n | s | l | d]; try contradiction; now rewrite H.
Qed.


(** X11. The exit status of the program.  When the validator is built and
    the script exists and can be read, the validation itself cannot fail,
    and the program ends with status 0 and the report on its output as
    soon as the report is rendered and printed; the rendering can fail in
    the format [html] only, and only when some issue holds a severity that
    is not a string or suggestions that cannot be iterated.  In every other
    case the status is 1. *)
Theorem cli_status (fs : filesystem) (args : Cli.arguments) :
  let result :=
    Cli.main GEMINI_AVAILABLE make_model decode_error py_str print_error fs args in
  match Cli.__init__ GEMINI_AVAILABLE make_model decode_error fs (Cli.config args),
        path_exists fs (Cli.file args), read_text fs (Cli.file args) with
  | Returns validator, true, Returns content =>
      let r := validate_content validator content (file_ext (Cli.file args)) in
      match get_report py_str r (Cli.format_name (Cli.format args)) with
      | Returns report =>
          match print_error report with
          | None => Cli.status result = 0 /\ Cli.stdout result = report ++ br
          | Some _ => Cli.status result = 1
          end
      | Raises _ =>
          Cli.status result = 1
          /\ Cli.format args = Cli.html_format
          /\ ~ Forall renderable (issues r)
      end
  | _, _, _ => Cli.status result = 1
  end.
Proof.
  cbv zeta. unfold Cli.main, Cli.attempt, validate_file.
  assert (S1 : forall e,
            Cli.status
              (let line := "Error: " ++ exn_text e in
               match print_error line with
               | None => {| Cli.stdout := line ++ br; Cli.status := 1 |}
               | Some _ => {| Cli.stdout := ""; Cli.status := 1 |}
               end) = 1).
  { intros e. cbv zeta. now destruct (print_error _). }
  destruct (Cli.__init__ _ _ _ fs (Cli.config args)) as [validator|e].
  2:{ destruct (path_exists fs (Cli.file args));
      [destruct (read_text fs (Cli.file args))|]; apply S1. }
  destruct (path_exists fs (Cli.file args)); [|apply S1].
  destruct (read_text fs (Cli.file args)) as [content|e]; [|apply S1].
  destruct (get_report py_str _ _) as [report|e] eqn:G.
  - destruct (print_error report); [apply S1|now split].
  - split; [apply S1|]. eapply get_report_raises, G.
Qed.

End CliProofs.

Lemma service_needs_a_key_witness :
  Cli.__init__ true mute_model (fun _ => "") one_config (Some "config.json")
  = Returns {| gemini_model := Some {| generate_content := fun _ => Response None |} |}.
Proof.
  destruct (service_needs_a_key true mute_model (fun _ => "") one_config
              (Some "config.json")) as (H & _).
  apply H. split; [reflexivity|].
  exists [("gemini_api_key", JStr "k")], (JStr "k"). repeat split.
Defined.


(** ** Further properties of the tools updater *)

Module UpdaterMore.
Import Updater.

Section Counts.

Variable today : string.
Variable self : ToolsUpdater.

Lemma all_info_nil : all_info [].
Proof. intros ev []. Qed.

Lemma all_info_cons m tr : all_info tr -> all_info (Log INFO m :: tr).
Proof. intros H ev [<-|Hev]; eauto. Qed.

Lemma all_info_app a b : all_info a -> all_info b -> all_info (a ++ b)%list.
Proof.
  intros Ha Hb ev H. apply in_app_or in H as [H|H]; auto.
Qed.

(** A tool that has a name goes through the body of the loop without an
    exception and is counted. *)
Lemma process_tool_named t name st :
  get "Tool Name" t = Some name ->
  exists tr,
    process_tool today self t st = (inl tt, counted self t st, tr) /\ all_info tr.
Proof.
  intros Hn.
  unfold process_tool, update_documentation, ensure_tool_directory,
    update_tool_code, update_last_updated, when, item, bind, info, emit, ret,
    raise, modify, counted.
  rewrite Hn.
  destruct (dry_run self); cbn [negb andb];
    destruct (truthy (get "Documentation URL" t));
    destruct (truthy (get "Repository Path" t)) eqn:R;
    try (destruct (get "Repository Path" t) as [[|c p]|]; [discriminate| |discriminate]);
    cbn; destruct st; (eexists; split; [reflexivity|]);
    repeat apply all_info_cons; apply all_info_nil.
Qed.

(** A tool without a name stops the whole loop: the body raises, and so
    does the handler, before anything is counted or logged. *)
Lemma handled_tool_unnamed t st :
  get "Tool Name" t = None ->
  try_except (process_tool today self t)
    (fun e =>
       name <- item t "Tool Name" ;;
       emit (Log ERROR ("Error updating tool " ++ name ++ ": " ++ error_str e)) ;;;
       modify bump_errors) st
  = (inr (KeyError "Tool Name"), st, []).
Proof.
  intros Hn. unfold try_except, process_tool, item, bind, raise.
  rewrite Hn. reflexivity.
Qed.

Lemma handled_tool_named t name st :
  get "Tool Name" t = Some name ->
  exists tr,
    try_except (process_tool today self t)
      (fun e =>
         name <- item t "Tool Name" ;;
         emit (Log ERROR ("Error updating tool " ++ name ++ ": " ++ error_str e)) ;;;
         modify bump_errors) st
    = (inl tt, counted self t st, tr) /\ all_info tr.
Proof.
  intros Hn. destruct (process_tool_named t name st Hn) as (tr & E & Htr).
  exists tr. split; [|assumption]. unfold try_except. now rewrite E.
Qed.

Lemma loop_outcome tools : forall st,
  exists r st' tr,
    for_each tools (fun t =>
      try_except (process_tool today self t)
        (fun e =>
           name <- item t "Tool Name" ;;
           emit (Log ERROR ("Error updating tool " ++ name ++ ": " ++ error_str e)) ;;;
           modify bump_errors)) st = (r, st', tr)
    /\ all_info tr
    /\ errors st' = errors st /\ new_tools st' = new_tools st
    /\ tools_processed st' = tools_processed st
    /\ (if forallb named tools
        then r = inl tt /\ st' = fold_left (fun s t => counted self t s) tools st
        else r = inr (KeyError "Tool Name")).
Proof.
  induction tools as [|t rest IH]; intros st.
  - exists (inl tt), st, []. repeat split. apply all_info_nil.
  - cbn [for_each forallb fold_left]. unfold bind at 1. unfold named at 1.
    destruct (get "Tool Name" t) as [name|] eqn:Hn.
    + destruct (handled_tool_named t name st Hn) as (tr & -> & Htr).
      destruct (IH (counted self t st)) as (r & st' & tr' & -> & H1 & H2 & H3 & H4 & H5).
      exists r, st', (tr ++ tr')%list. split; [reflexivity|].
      split; [now apply all_info_app|]. cbn [andb].
      repeat split; try assumption; destruct st; cbn in *; congruence.
    + rewrite (handled_tool_unnamed t st Hn).
      exists (inr (KeyError "Tool Name")), st, []. cbn [andb].
      repeat split. apply all_info_nil.
Qed.

Lemma counted_fold tools : forall st,
  let live := negb (dry_run self) in
  let k key := if live then count_with key tools else 0 in
  fold_left (fun s t => counted self t s) tools st
  = mkStats (k "Repository Path" + tools_updated st)
            (k "Documentation URL" + docs_updated st)
            (k "Repository Path" + code_updated st)
            (errors st) (new_tools st) (tools_processed st).
Proof.
  induction tools as [|t rest IH]; intros st; cbv zeta.
  - cbn. destruct (negb (dry_run self)); now destruct st.
  - cbn [fold_left]. rewrite IH. cbv zeta. unfold counted, count_with.
    cbn [filter tools_updated docs_updated code_updated errors new_tools
         tools_processed].
    destruct (negb (dry_run self)); cbn [andb];
      destruct (truthy (get "Documentation URL" t));
      destruct (truthy (get "Repository Path" t));
      cbn [List.length]; f_equal; lia.
Qed.

(** X12. [update_tools] returns exactly when every tool has a name; a tool
    without one makes it raise [KeyError] on that key, since the handler
    reads the name again.  So the error counter is never raised: in every
    outcome it is zero, like the count of new tools; the count of processed
    tools is the length of the list, and every record logged is of level
    [INFO]. *)
Theorem update_tools_outcome (tools : list tool) (st : stats) :
  exists r st' tr,
    update_tools today self tools st = (r, st', tr)
    /\ all_info tr
    /\ errors st' = 0 /\ new_tools st' = 0
    /\ tools_processed st' = List.length tools
    /\ (if forallb named tools
        then r = inl st'
        else r = inr (KeyError "Tool Name")).
Proof.
  unfold update_tools. unfold bind at 1. unfold modify at 1.
  unfold bind at 1.
  destruct (loop_outcome tools (mkStats 0 0 0 0 0 (List.length tools)))
    as (r & st' & tr & -> & Htr & H1 & H2 & H3 & H4).
  cbn in H1, H2, H3.
  destruct (forallb named tools).
  - destruct H4 as (-> & _). cbn.
    exists (inl st'), st', (tr ++ [])%list.
    rewrite app_nil_r. repeat split; assumption.
  - rewrite H4. exists (inr (KeyError "Tool Name")), st', tr.
    repeat split; assumption.
Qed.

(** X13. When every tool has a name, [update_tools] returns the counts of
    what it did: outside a dry run, as many documentation updates as there
    are tools with a documentation URL, and as many directory and code
    updates as there are tools with a repository path; in a dry run, zero
    of each. *)
Theorem update_tools_counts (tools : list tool) (st : stats) :
  forallb named tools = true ->
  let k key := if dry_run self then 0 else count_with key tools in
  let final := mkStats (k "Repository Path") (k "Documentation URL")
                       (k "Repository Path") 0 0 (List.length tools) in
  exists tr, update_tools today self tools st = (inl final, final, tr).
Proof.
  intros Hn. cbv zeta.
  unfold update_tools. unfold bind at 1. unfold modify at 1.
  unfold bind at 1.
  destruct (loop_outcome tools (mkStats 0 0 0 0 0 (List.length tools)))
    as (r & st' & tr & -> & Htr & H1 & H2 & H3 & H4).
  rewrite Hn in H4. destruct H4 as (-> & ->).
  rewrite counted_fold. cbv zeta. cbn.
  exists (tr ++ [])%list. rewrite !Nat.add_0_r.
  destruct (dry_run self); reflexivity.
Qed.

End Counts.

Lemma update_tools_counts_witness :
  exists tr,
    update_tools "2025-06-21"
      {| dry_run := false; github_token := None; google_api_key := None |}
      [[("Tool Name", "A"); ("Repository Path", "tools/A")];
       [("Tool Name", "B"); ("Documentation URL", "https://b")]]
      zero
    = (inl (mkStats 1 1 1 0 0 2), mkStats 1 1 1 0 0 2, tr).
Proof.
  apply (update_tools_counts "2025-06-21"
           {| dry_run := false; github_token := None; google_api_key := None |}
           [[("Tool Name", "A"); ("Repository Path", "tools/A")];
            [("Tool Name", "B"); ("Documentation URL", "https://b")]]
           zero).
  reflexivity.
Defined.

End UpdaterMore.

(** ** The storyboard generator *)

Module StoryboardProofs.
Import Storyboard.

Section WrapProofs.

Variable too_wide : string -> bool.

Lemma fill_lines_text words : forall line y,
  match fill_lines too_wide words line y with
  | (drawn, last, _) =>
      String.concat "" (map snd drawn) ++ last
      = line ++ String.concat "" (map (fun w => w ++ " ") words)
  end.
Proof.
  assert (C : forall a l, String.concat "" (a :: l) = a ++ String.concat "" l).
  { intros a [|b l]; cbn; [now rewrite append_nil_r|reflexivity]. }
  induction words as [|word rest IH]; intros line y; cbn [fill_lines map].
  - cbn. now rewrite append_nil_r.
  - rewrite C. destruct (too_wide (line ++ word ++ " ")).
    + specialize (IH (word ++ " ") (y + 20)%Z).
      destruct (fill_lines too_wide rest (word ++ " ") (y + 20)%Z) as [[drawn l] y'].
      cbn [map snd]. rewrite C, append_assoc, IH. reflexivity.
    + specialize (IH (line ++ word ++ " ") y).
      destruct (fill_lines too_wide rest (line ++ word ++ " ") y) as [[drawn l] y'].
      rewrite IH. now rewrite !append_assoc.
Qed.

Lemma concat_app_last l a :
  String.concat "" (l ++ [a])%list = String.concat "" l ++ a.
Proof.
  induction l as [|b l IH]; [reflexivity|].
  destruct l as [|c l]; [reflexivity|].
  cbn [app String.concat] in *. rewrite IH. now rewrite append_assoc.
Qed.

(** X14. Wrapping loses nothing: the lines drawn for a description, put
    end to end, are its words in order, each followed by one space. *)
Theorem wrapped_lines_keep_the_words (description : string) :
  String.concat "" (map snd (fst (draw_description too_wide description)))
  = String.concat "" (map (fun w => w ++ " ") (split description)).
Proof.
  unfold draw_description.
  pose proof (fill_lines_text (split description) "" 90%Z) as H.
  destruct (fill_lines too_wide (split description) "" 90%Z) as [[drawn l] y].
  cbn [fst]. rewrite map_app. cbn [map snd]. rewrite concat_app_last. exact H.
Qed.

Lemma fill_lines_layout all words : forall line y,
  incl words all ->
  line_fits too_wide all line ->
  match fill_lines too_wide words line y with
  | (drawn, last, y') =>
      Forall (line_fits too_wide all) (map snd drawn)
      /\ line_fits too_wide all last
      /\ map fst drawn
         = map (fun k => (y + 20 * Z.of_nat k)%Z) (seq 0 (List.length drawn))
      /\ y' = (y + 20 * Z.of_nat (List.length drawn))%Z
      /\ List.length drawn <= List.length words
  end.
Proof.
  induction words as [|word rest IH]; intros line y Hin Hl; cbn [fill_lines].
  - cbn. repeat split; [constructor|assumption|lia|lia].
  - assert (Hrest : incl rest all) by (intros w Hw; apply Hin; now right).
    destruct (too_wide (line ++ word ++ " ")) eqn:E.
    + assert (Hw : line_fits too_wide all (word ++ " ")).
      { right. right. exists word. split; [apply Hin; now left|reflexivity]. }
      specialize (IH (word ++ " ") (y + 20)%Z Hrest Hw).
      destruct (fill_lines too_wide rest (word ++ " ") (y + 20)%Z) as [[drawn l] y'].
      destruct IH as (H1 & H2 & H3 & H4 & H5).
      cbn [map fst snd List.length seq].
      split; [now constructor|]. split; [assumption|].
      split; [|split; [lia|lia]].
      f_equal; [lia|]. rewrite H3, <- seq_shift, map_map.
      apply map_ext. intros k. lia.
    + assert (Hw : line_fits too_wide all (line ++ word ++ " ")) by (right; now left).
      specialize (IH (line ++ word ++ " ") y Hrest Hw).
      destruct (fill_lines too_wide rest (line ++ word ++ " ") y) as [[drawn l] y'].
      destruct IH as (H1 & H2 & H3 & H4 & H5).
      repeat split; try assumption. cbn [List.length]. lia.
Qed.

(** X15. Every line drawn for a description fits the width of the image,
    unless it is a single word placed alone or the empty line that precedes
    a first word too wide; the lines are drawn 20 pixels apart from height
    90 on, and there is at least one and at most one more than there are
    words. *)
Theorem wrapped_lines_layout (description : string) :
  let lines := fst (draw_description too_wide description) in
  Forall (line_fits too_wide (split description)) (map snd lines)
  /\ map fst lines
     = map (fun k => (90 + 20 * Z.of_nat k)%Z) (seq 0 (List.length lines))
  /\ 1 <= List.length lines <= S (List.length (split description))
  /\ snd (draw_description too_wide description)
     = (90 + 20 * Z.of_nat (List.length lines - 1))%Z.
Proof.
  cbv zeta. unfold draw_description.
  pose proof (fill_lines_layout (split description) (split description) "" 90%Z
                (incl_refl _) (or_introl eq_refl)) as H.
  destruct (fill_lines too_wide (split description) "" 90%Z) as [[drawn l] y].
  destruct H as (H1 & H2 & H3 & H4 & H5).
  cbn [fst snd]. rewrite !map_app, length_app. cbn [map fst snd List.length].
  split; [|split; [|split]].
  - apply Forall_app. split; [assumption|]. now constructor.
  - rewrite Nat.add_1_r, seq_S, map_app, H3, H4. reflexivity.
  - lia.
  - rewrite H4. f_equal. f_equal. f_equal. lia.
Qed.

End WrapProofs.

Lemma succ_mod3 n : (S n) mod 3 = if (n mod 3 =? 2)%nat then 0 else n mod 3 + 1.
Proof.
  pose proof (Nat.div_mod_eq n 3) as E.
  pose proof (Nat.mod_upper_bound n 3 ltac:(lia)) as U.
  destruct (Nat.eqb_spec (n mod 3) 2) as [H|H]; symmetry.
  - apply (Nat.mod_unique _ 3 (S (n / 3))); lia.
  - apply (Nat.mod_unique _ 3 (n / 3)); lia.
Qed.



Section PdfProofs.

Variable date_str : string.
Variable path_exists : string -> bool.
Variable drawable : string -> bool.




Lemma draw_frame_room frame y n :
  page_room y n ->
  match draw_frame path_exists drawable frame y n with
  | (ops, y', n') =>
      Forall (fun op => Forall on_page (heights op)) ops /\ page_room y' n'
  end.
Proof.
  unfold page_room, draw_frame, on_page. intros (Hu & Hl). cbv zeta.
  pose proof (Nat.mod_upper_bound n 3 ltac:(lia)) as U.
  pose proof (succ_mod3 n) as M.
  assert (Hy0 : let y0 := if (0 <? n)%nat && (n mod 3 =? 0)%nat
                          then (page_height - 72)%Z else y in
                (y0 <= 720 /\ 662 - 185 * Z.of_nat (n mod 3) <= y0)%Z).
  { cbv zeta. unfold page_height.
    destruct (Nat.eqb_spec n 0) as [->|Hn]; [cbn; lia|].
    destruct (Nat.ltb_spec 0 n); [|lia].
    destruct (Nat.eqb_spec (n mod 3) 0) as [E|E]; cbn [andb]; [rewrite E|]; lia. }
  cbv zeta in Hy0.
  set (y0 := if (0 <? n)%nat && (n mod 3 =? 0)%nat then _ else y) in *.
  clearbody y0. clear Hu Hl.
  cbn [Nat.eqb]. rewrite M.
  assert (R : forall y', (y0 - 185 <= y' <= 720)%Z ->
              (y' <= 720)%Z
              /\ (662 - 185 * Z.of_nat
                    (if ((if (n mod 3 =? 2)%nat then 0 else n mod 3 + 1) =? 0)%nat
                     then 3 else if (n mod 3 =? 2)%nat then 0 else n mod 3 + 1)
                  <= y')%Z).
  { intros y' Hy'. split; [lia|].
    destruct (Nat.eqb_spec (n mod 3) 2) as [E|E]; cbn [Nat.eqb].
    - rewrite E in Hy0. lia.
    - destruct (Nat.eqb_spec (n mod 3 + 1) 0); lia. }
  destruct (has_image path_exists frame) as [path|];
    [destruct (drawable path)|]; cbn [fst snd app];
    (split; [|apply R; lia]);
    destruct ((0 <? n)%nat && (n mod 3 =? 0)%nat); cbn [app];
    repeat (constructor; cbn [heights]); try lia.
Qed.

Lemma draw_frames_room fs : forall y n,
  page_room y n ->
  Forall (fun op => Forall on_page (heights op))
         (draw_frames path_exists drawable fs y n).
Proof.
  induction fs as [|frame rest IH]; intros y n H; cbn [draw_frames]; [constructor|].
  pose proof (draw_frame_room frame y n H) as D.
  destruct (draw_frame path_exists drawable frame y n) as [[ops y'] n'].
  destruct D as (D1 & D2). apply Forall_app. split; [assumption|now apply IH].
Qed.

(** X17. Three frames always fit a page: whatever the frames, whichever
    images exist and can be drawn, every heading, image and block of text of
    the PDF is placed at a height between 167 and 720 points, inside the
    page of 792. *)
Theorem pdf_stays_on_the_page (self : Storyboard) (output_path : option string) :
  Forall (fun op => Forall on_page (heights op))
         (snd (export_pdf date_str path_exists drawable self output_path)).
Proof.
  unfold export_pdf. cbn [snd]. unfold page_height.
  repeat (constructor; [cbn [heights]; repeat constructor; unfold on_page; lia|]).
  apply Forall_app. split.
  - apply draw_frames_room. unfold page_room. cbn. lia.
  - repeat constructor.
Qed.

End PdfProofs.

Lemma scan_items_array fuel : forall s acc v r,
  Json.scan_items fuel s acc = Some (v, r) -> exists l, v = JArr l.
Proof.
  induction fuel as [|f IH]; intros s acc v r; cbn [Json.scan_items]; [discriminate|].
  destruct (Json.scan_once f s) as [[x t]|]; [|discriminate].
  destruct (Json.skip_ws t) as [|d t']; [discriminate|].
  destruct (Ascii.eqb d "]"); [intros [= <- _]; eauto|].
  destruct (Ascii.eqb d ","); [apply IH|discriminate].
Qed.

Lemma loads_bracket r v :
  Json.loads (String "[" r) = Some v -> exists l, v = JArr l.
Proof.
  unfold Json.loads.
  change (Json.skip_ws (String "[" r)) with (String "[" r).
  cbn [Json.scan_once].
  change (Ascii.eqb "[" Json.quote) with false.
  change (Ascii.eqb "[" "{") with false.
  change (Ascii.eqb "[" "[") with true. cbv iota.
  destruct (Json.skip_ws r) as [|d r']; [discriminate|].
  destruct (Ascii.eqb d "]").
  - destruct (Json.skip_ws r'); [intros [= <-]; eauto|discriminate].
  - destruct (Json.scan_items _ _ _) as [[x t]|] eqn:E; [|discriminate].
    destruct (Json.skip_ws t); [|discriminate].
    intros [= <-]. eapply scan_items_array, E.
Qed.

Lemma find_drop c s i : find c s = Some i -> exists r, Str.drop i s = String c r.
Proof.
  revert i. induction s as [|d s IH]; cbn [find]; intros i H; [discriminate|].
  destruct (Ascii.eqb_spec d c) as [->|_].
  - injection H as <-. cbn. eauto.
  - destruct (find c s) as [j|]; [|discriminate].
    injection H as <-. cbn. now apply IH.
Qed.

Lemma scenes_of_text_bracketed scenes_text :
  scenes_of_text scenes_text
  = match bracketed scenes_text with
    | Some json_text =>
        match Json.loads json_text with
        | Some scenes => scenes
        | None => default_scenes
        end
    | None => default_scenes
    end.
Proof.
  unfold scenes_of_text, bracketed.
  destruct (find "[" scenes_text) as [i|]; [|reflexivity].
  destruct (Str.rfind "]" scenes_text) as [j|].
  - change (i <? S j)%nat with (i <=? j)%nat.
    now destruct (i <=? j)%nat.
  - reflexivity.
Qed.

Lemma bracketed_head scenes_text json_text :
  bracketed scenes_text = Some json_text -> exists r, json_text = String "[" r.
Proof.
  unfold bracketed.
  destruct (find "[" scenes_text) as [i|] eqn:F; [|discriminate].
  destruct (Str.rfind "]" scenes_text) as [j|]; [|discriminate].
  destruct (Nat.leb_spec i j) as [L|L]; [|discriminate].
  intros [= <-]. destruct (find_drop _ _ _ F) as (r & ->).
  change (match i with 0 => S j | S l => j - l end) with (S j - i).
  destruct (S j - i) as [|k] eqn:K; [lia|]. cbn [Str.take]. eauto.
Qed.

Lemma scenes_of_text_array scenes_text :
  exists scenes, scenes_of_text scenes_text = JArr scenes.
Proof.
  rewrite scenes_of_text_bracketed. unfold default_scenes.
  destruct (bracketed scenes_text) as [json_text|] eqn:B; [|eauto].
  destruct (bracketed_head _ _ B) as (r & ->).
  destruct (Json.loads _) as [v|] eqn:E; [|eauto].
  apply loads_bracket in E as (l & ->). eauto.
Qed.

(** X18. [parse_script] raises in two cases only, which it does not
    catch: the script cannot be opened and read, and the exception is that
    of [open] or [read]; or the call to the service raises.  In every other
    case it returns a list of scenes: the list that [json.loads] makes of
    the text between the first opening bracket of the response and its last
    closing bracket, and the default scene when the text of the response
    cannot be read, holds no such brackets, or does not decode.  What is
    decoded starts with a bracket, so it is a list, and the length that the
    last log record needs always exists. *)
Theorem parse_script_returns_a_list (fs : filesystem) (model : GenerativeModel)
  (script_path : string) :
  match read_text fs script_path with
  | Raises e => parse_script fs model script_path = Raises e
  | Returns script_content =>
      match generate_content model (parse_prompt script_content) with
      | CallRaises msg =>
          parse_script fs model script_path = Raises (LibraryError msg)
      | Response None =>
          parse_script fs model script_path = Returns default_scenes
      | Response (Some scenes_text) =>
          exists scenes,
            parse_script fs model script_path = Returns (JArr scenes)
            /\ JArr scenes
               = match bracketed scenes_text with
                 | Some json_text =>
                     match Json.loads json_text with
                     | Some decoded => decoded
                     | None => default_scenes
                     end
                 | None => default_scenes
                 end
      end
  end.
Proof.
  unfold parse_script.
  destruct (read_text fs script_path) as [script_content|e]; [|reflexivity].
  destruct (generate_content model _) as [e|[scenes_text|]]; try reflexivity.
  destruct (scenes_of_text_array scenes_text) as (scenes & E).
  exists scenes. rewrite E. split; [reflexivity|].
  rewrite <- E. apply scenes_of_text_bracketed.
Qed.

Lemma find_after c a r :
  without c a = true -> find c (a ++ String c r) = Some (String.length a).
Proof.
  intros H. induction a as [|d a IH]; cbn [String.append find String.length].
  - now rewrite Ascii.eqb_refl.
  - cbn in H. apply andb_true_iff in H as [Hd Ha].
    apply negb_true_iff in Hd. now rewrite Hd, (IH Ha).
Qed.

Lemma rfind_absent c s : without c s = true -> Str.rfind c s = None.
Proof.
  intros H. induction s as [|d s IH]; [reflexivity|].
  cbn in H. apply andb_true_iff in H as [Hd Hs].
  apply negb_true_iff in Hd. cbn [Str.rfind]. now rewrite (IH Hs), Hd.
Qed.

Lemma rfind_before c s r :
  without c r = true -> Str.rfind c (s ++ String c r) = Some (String.length s).
Proof.
  intros H. induction s as [|d s IH]; cbn [String.append Str.rfind String.length].
  - now rewrite (rfind_absent c r H), Ascii.eqb_refl.
  - now rewrite IH.
Qed.

Lemma take_length_app a b : Str.take (String.length a) (a ++ b) = a.
Proof.
  induction a as [|c a IH]; cbn; [now destruct b|congruence].
Qed.

(** The text between the brackets, when prose without an opening bracket
    comes first and prose without a closing bracket comes last. *)
Lemma bracketed_in_prose before body after :
  without "[" before = true -> without "]" after = true ->
  bracketed (before ++ String "[" (body ++ "]") ++ after)
  = Some (String "[" (body ++ "]")).
Proof.
  intros Hb Ha. unfold bracketed.
  assert (F : find "[" (before ++ String "[" (body ++ "]") ++ after)
              = Some (String.length before)).
  { cbn [String.append]. now apply find_after. }
  assert (R : Str.rfind "]" (before ++ String "[" (body ++ "]") ++ after)
              = Some (String.length before + String.length body + 1)).
  { replace (before ++ String "[" (body ++ "]") ++ after)
      with ((before ++ String "[" body) ++ String "]" after).
    - rewrite (rfind_before _ _ _ Ha), length_append. cbn [String.length]. f_equal. lia.
    - rewrite (append_assoc before). apply f_equal.
      cbn [String.append]. apply f_equal. now rewrite append_assoc. }
  rewrite F, R.
  destruct (Nat.leb_spec (String.length before)
              (String.length before + String.length body + 1)); [|lia].
  rewrite drop_length_app.
  replace (S (String.length before + String.length body + 1) - String.length before)
    with (String.length (String "[" (body ++ "]"))).
  - now rewrite take_length_app.
  - cbn [String.length]. rewrite length_append. cbn [String.length]. lia.
Qed.

(** X19. The prose around a list of scenes is ignored: when the response
    holds a text that starts with an opening bracket and ends with a
    closing one, with before it a text that holds no opening bracket and
    after it a text that holds no closing bracket, the scenes are read off
    that text alone, so that [parse_script] returns what it returns when
    the service answers with that text and nothing else. *)
Theorem scenes_are_found_in_prose (fs : filesystem) (script_path : string)
  (before body after : string) :
  without "[" before = true ->
  without "]" after = true ->
  let payload := String "[" (body ++ "]") in
  bracketed (before ++ payload ++ after) = Some payload
  /\ bracketed payload = Some payload
  /\ parse_script fs (saying (before ++ payload ++ after)) script_path
     = parse_script fs (saying payload) script_path.
Proof.
  intros Hb Ha payload.
  pose proof (bracketed_in_prose before body after Hb Ha) as E1.
  pose proof (bracketed_in_prose "" body "" eq_refl eq_refl) as E2.
  cbn [String.append] in E2. rewrite append_nil_r in E2.
  fold payload in E1, E2.
  split; [exact E1|]. split; [exact E2|].
  unfold parse_script, saying. cbn [generate_content].
  now rewrite !scenes_of_text_bracketed, E1, E2.
Qed.

Lemma scenes_are_found_in_prose_witness :
  parse_script (single_file "script.txt" "INT. HOUSE - DAY")
    (saying ("Here are the scenes: " ++ String "[" ("{}, 7" ++ "]")
             ++ " I hope this helps."))
    "script.txt"
  = parse_script (single_file "script.txt" "INT. HOUSE - DAY")
      (saying (String "[" ("{}, 7" ++ "]"))) "script.txt".
Proof.
  apply (scenes_are_found_in_prose (single_file "script.txt" "INT. HOUSE - DAY")
           "script.txt" "Here are the scenes: " "{}, 7" " I hope this helps.");
    reflexivity.
Defined.

End StoryboardProofs.
